(** * group_messaging/models.py: the message store, the memo overlay and
      the thread queries, embedded as functions over an explicit database.

    The Django models become records, the tables become fields of [DB],
    and every manager or model method becomes a function in the monad [M],
    which threads the database and may raise one of the exceptions [exn].
    A raised exception keeps the writes made before it: the module wraps
    nothing in a transaction.

    Embedded: [get_personal_group], [MessageMemo], [SenderList] as far as
    [add_recipients] writes it, [Message] with [add_recipients],
    [update_senders_info] and [unarchive], and [MessageManager] with
    [get_threads], [create], [create_thread] and [create_response].
    [LastVisitTime], [SenderListManager.get_senders_for_user] and the helpers
    that create or list personal groups take no part in what is proved. *)

From Stdlib Require Import String Ascii DecimalString DecimalNat.
From stdpp Require Import gmap strings list fin_maps.

Local Open Scope string_scope.
Local Open Scope list_scope.

(** ** Python strings *)

Module Py.

(** [s[:n]] *)
Definition slice_to (n : nat) (s : string) : string := substring 0 n s.

(** [s.split(',')]: never empty, [''.split(',') = ['']]. *)
Fixpoint split_comma (s : string) : list string :=
  match s with
  | EmptyString => [EmptyString]
  | String c r =>
      if Ascii.eqb c ","%char then EmptyString :: split_comma r
      else match split_comma r with
           | h :: t => String c h :: t
           | [] => [String c EmptyString]
           end
  end.

(** [','.join(l)] *)
Definition join_comma (l : list string) : string := String.concat "," l.

(** [x in l] *)
Definition contains (x : string) (l : list string) : bool :=
  bool_decide (x ∈ l).

(** [l.remove(x)] for an [x] that occurs: drops the first occurrence. *)
Fixpoint remove (x : string) (l : list string) : list string :=
  match l with
  | [] => []
  | y :: t => if decide (x = y) then t else y :: remove x t
  end.

(** ['%s' % n] for a non-negative integer. *)
Definition str_of_nat (n : nat) : string :=
  NilEmpty.string_of_uint (Nat.to_uint n).

End Py.

(** ** Constants *)

Definition MAX_TITLE_LENGTH : nat := 80.
Definition MAX_SENDERS_INFO_LENGTH : nat := 64.

(** dummy parse message function *)
Definition parse_message {A : Type} (v : A) : A := v.

Definition GROUP_NAME_TPL (arg : string) : string := String.append "_personal_" arg.

(** ** Rows *)

(** [django.contrib.auth] rows.  Users are owned elsewhere and never
    written here, so a foreign key to a user carries the user row. *)
Record User := { user_id : nat; username : string }.
Record Group := { group_id : nat; group_name : string }.

Inductive MemoStatus := SEEN | ARCHIVED.
Inductive MessageType := STORED | TEMPORARY | ONE_TIME.

Record MessageMemo := {
  memo_id : nat;
  user : User;
  message : nat;          (* foreign key: id of the message *)
  status : MemoStatus
}.

Record Message := {
  msg_id : nat;
  message_type : MessageType;
  sender : User;
  senders_info : string;
  root : option nat;      (* nullable foreign key to self *)
  parent : option nat;    (* nullable foreign key to self *)
  headline : string;
  text : option string;
  html : option string;
  sent_at : nat;
  last_active_at : nat;
  active_until : option nat
}.

Record SenderList := {
  senderlist_id : nat;
  recipient : nat         (* foreign key: id of the group *)
}.

Global Instance User_eq_dec : EqDecision User.
Proof. solve_decision. Defined.
Global Instance Group_eq_dec : EqDecision Group.
Proof. solve_decision. Defined.
Global Instance MemoStatus_eq_dec : EqDecision MemoStatus.
Proof. solve_decision. Defined.
Global Instance MessageType_eq_dec : EqDecision MessageType.
Proof. solve_decision. Defined.
Global Instance MessageMemo_eq_dec : EqDecision MessageMemo.
Proof. solve_decision. Defined.
Global Instance Message_eq_dec : EqDecision Message.
Proof. solve_decision. Defined.
Global Instance SenderList_eq_dec : EqDecision SenderList.
Proof. solve_decision. Defined.

(** ** The database *)

Record DB := {
  auth_group : list Group;
  auth_user_groups : list (nat * nat);       (* (user id, group id) *)
  message_tbl : gmap nat Message;            (* primary key to row *)
  message_recipients : list (nat * nat);     (* (message id, group id) *)
  messagememo_tbl : list MessageMemo;
  senderlist_tbl : list SenderList;
  senderlist_senders : list (nat * nat);     (* (sender list id, user id) *)
  next_message_id : nat;
  next_memo_id : nat;
  next_senderlist_id : nat
}.

Definition set_message_tbl (f : gmap nat Message → gmap nat Message) (db : DB) : DB :=
  {| auth_group := auth_group db; auth_user_groups := auth_user_groups db;
     message_tbl := f (message_tbl db);
     message_recipients := message_recipients db;
     messagememo_tbl := messagememo_tbl db;
     senderlist_tbl := senderlist_tbl db;
     senderlist_senders := senderlist_senders db;
     next_message_id := next_message_id db;
     next_memo_id := next_memo_id db;
     next_senderlist_id := next_senderlist_id db |}.

Definition set_message_recipients (f : list (nat * nat) → list (nat * nat)) (db : DB) : DB :=
  {| auth_group := auth_group db; auth_user_groups := auth_user_groups db;
     message_tbl := message_tbl db;
     message_recipients := f (message_recipients db);
     messagememo_tbl := messagememo_tbl db;
     senderlist_tbl := senderlist_tbl db;
     senderlist_senders := senderlist_senders db;
     next_message_id := next_message_id db;
     next_memo_id := next_memo_id db;
     next_senderlist_id := next_senderlist_id db |}.

Definition set_messagememo_tbl (f : list MessageMemo → list MessageMemo) (db : DB) : DB :=
  {| auth_group := auth_group db; auth_user_groups := auth_user_groups db;
     message_tbl := message_tbl db;
     message_recipients := message_recipients db;
     messagememo_tbl := f (messagememo_tbl db);
     senderlist_tbl := senderlist_tbl db;
     senderlist_senders := senderlist_senders db;
     next_message_id := next_message_id db;
     next_memo_id := next_memo_id db;
     next_senderlist_id := next_senderlist_id db |}.

Definition set_senderlist_tbl (f : list SenderList → list SenderList) (db : DB) : DB :=
  {| auth_group := auth_group db; auth_user_groups := auth_user_groups db;
     message_tbl := message_tbl db;
     message_recipients := message_recipients db;
     messagememo_tbl := messagememo_tbl db;
     senderlist_tbl := f (senderlist_tbl db);
     senderlist_senders := senderlist_senders db;
     next_message_id := next_message_id db;
     next_memo_id := next_memo_id db;
     next_senderlist_id := next_senderlist_id db |}.

Definition set_senderlist_senders (f : list (nat * nat) → list (nat * nat)) (db : DB) : DB :=
  {| auth_group := auth_group db; auth_user_groups := auth_user_groups db;
     message_tbl := message_tbl db;
     message_recipients := message_recipients db;
     messagememo_tbl := messagememo_tbl db;
     senderlist_tbl := senderlist_tbl db;
     senderlist_senders := f (senderlist_senders db);
     next_message_id := next_message_id db;
     next_memo_id := next_memo_id db;
     next_senderlist_id := next_senderlist_id db |}.

Definition bump_message_id (db : DB) : DB :=
  {| auth_group := auth_group db; auth_user_groups := auth_user_groups db;
     message_tbl := message_tbl db;
     message_recipients := message_recipients db;
     messagememo_tbl := messagememo_tbl db;
     senderlist_tbl := senderlist_tbl db;
     senderlist_senders := senderlist_senders db;
     next_message_id := S (next_message_id db);
     next_memo_id := next_memo_id db;
     next_senderlist_id := next_senderlist_id db |}.

Definition bump_memo_id (db : DB) : DB :=
  {| auth_group := auth_group db; auth_user_groups := auth_user_groups db;
     message_tbl := message_tbl db;
     message_recipients := message_recipients db;
     messagememo_tbl := messagememo_tbl db;
     senderlist_tbl := senderlist_tbl db;
     senderlist_senders := senderlist_senders db;
     next_message_id := next_message_id db;
     next_memo_id := S (next_memo_id db);
     next_senderlist_id := next_senderlist_id db |}.

Definition bump_senderlist_id (db : DB) : DB :=
  {| auth_group := auth_group db; auth_user_groups := auth_user_groups db;
     message_tbl := message_tbl db;
     message_recipients := message_recipients db;
     messagememo_tbl := messagememo_tbl db;
     senderlist_tbl := senderlist_tbl db;
     senderlist_senders := senderlist_senders db;
     next_message_id := next_message_id db;
     next_memo_id := next_memo_id db;
     next_senderlist_id := S (next_senderlist_id db) |}.

(** ** Exceptions and the database monad *)

Inductive exn :=
| KeyError (key : string)
| TypeError
| AttributeError
| IntegrityError
| DoesNotExist
| MultipleObjectsReturned
| ValidationError.

Definition M (A : Type) : Type := DB → DB * (exn + A).

Definition raise {A} (e : exn) : M A := λ db, (db, inl e).
Definition get_db : M DB := λ db, (db, inr db).
Definition modify_db (f : DB → DB) : M unit := λ db, (f db, inr tt).

Global Instance M_ret : MRet M := λ A a db, (db, inr a).
Global Instance M_bind : MBind M := λ A B k c db,
  match c db with
  | (db', inr a) => k a db'
  | (db', inl e) => (db', inl e)
  end.

(** Unfolds the monad's operations and computes. *)
Ltac run_M :=
  unfold mbind, M_bind, mret, M_ret, get_db, modify_db, raise; simpl.

(** [for x in l: body x] *)
Fixpoint for_each {A} (l : list A) (body : A → M unit) : M unit :=
  match l with
  | [] => mret tt
  | x :: t => body x;; for_each t body
  end.

(** ** Group directory *)

(** [Group.objects.get(name=name)] *)
Definition Group_objects_get (name : string) : M Group :=
  db ← get_db;
  match filter (λ g, group_name g = name) (auth_group db) with
  | [] => raise DoesNotExist
  | [g] => mret g
  | _ => raise MultipleObjectsReturned
  end.

Definition get_personal_group_by_user_id (uid : nat) : M Group :=
  Group_objects_get (GROUP_NAME_TPL (Py.str_of_nat uid)).

(** returns personal group for the user *)
Definition get_personal_group (u : User) : M Group :=
  get_personal_group_by_user_id (user_id u).

(** [user.groups.all()]: the groups joined with the membership table. *)
Definition groups_all (db : DB) (u : User) : list Group :=
  filter (λ g, (user_id u, group_id g) ∈ auth_user_groups db) (auth_group db).

(** ** Many-to-many tables *)

(** [add] of a many-to-many manager: only the links that are not yet
    there are inserted. *)
Definition m2m_add (owner : nat) (ids : list nat) (tbl : list (nat * nat)) : list (nat * nat) :=
  foldl (λ t i, if bool_decide ((owner, i) ∈ t) then t else t ++ [(owner, i)]) tbl ids.

(** [message.recipients.all()] *)
Definition recipients_all (db : DB) (m : Message) : list Group :=
  filter (λ g, (msg_id m, group_id g) ∈ message_recipients db) (auth_group db).

(** The ids of the groups [message.recipients.all()] returns. *)
Definition recipient_ids (db : DB) (m : Message) : list nat :=
  group_id <$> recipients_all db m.

(** A Python [set] of groups, kept as a list without two groups of one
    primary key; [set_add] is [s.add(g)].  The iteration order of a Python
    set is unspecified: the model iterates in insertion order. *)
Definition set_of_groups (l : list Group) : list Group :=
  foldl (λ s g, if bool_decide (group_id g ∈ group_id <$> s) then s else s ++ [g]) [] l.

Definition set_add (g : Group) (s : list Group) : list Group :=
  if bool_decide (group_id g ∈ group_id <$> s) then s else s ++ [g].

(** ** Memo overlay *)

Definition memos_of (db : DB) (u : User) (mid : nat) : list MessageMemo :=
  filter (λ memo, user_id (user memo) = user_id u ∧ message memo = mid)
         (messagememo_tbl db).

(** [MessageMemo.objects.create(message=m, user=u, status=st)];
    [unique_together = ('user', 'message')] rejects a second memo. *)
Definition MessageMemo_objects_create (m : Message) (u : User) (st : MemoStatus) : M MessageMemo :=
  db ← get_db;
  match memos_of db u (msg_id m) with
  | [] =>
      let memo := {| memo_id := next_memo_id db; user := u;
                     message := msg_id m; status := st |} in
      modify_db (λ db, bump_memo_id (set_messagememo_tbl (λ t, t ++ [memo]) db));;
      mret memo
  | _ => raise IntegrityError
  end.

Definition set_status (st : MemoStatus) (memo : MessageMemo) : MessageMemo :=
  {| memo_id := memo_id memo; user := user memo; message := message memo;
     status := st |}.

(** ** Sender index *)

(** [SenderList.objects.get_or_create(recipient=g)] *)
Definition SenderList_get_or_create (g : Group) : M SenderList :=
  db ← get_db;
  match filter (λ sl, recipient sl = group_id g) (senderlist_tbl db) with
  | [] =>
      let sl := {| senderlist_id := next_senderlist_id db; recipient := group_id g |} in
      modify_db (λ db, bump_senderlist_id (set_senderlist_tbl (λ t, t ++ [sl]) db));;
      mret sl
  | [sl] => mret sl
  | _ => raise MultipleObjectsReturned
  end.

(** ** Message instances *)

Definition set_senders_info (s : string) (m : Message) : Message :=
  {| msg_id := msg_id m; message_type := message_type m; sender := sender m;
     senders_info := s; root := root m; parent := parent m;
     headline := headline m; text := text m; html := html m;
     sent_at := sent_at m; last_active_at := last_active_at m;
     active_until := active_until m |}.

Definition set_last_active_at (t : nat) (m : Message) : Message :=
  {| msg_id := msg_id m; message_type := message_type m; sender := sender m;
     senders_info := senders_info m; root := root m; parent := parent m;
     headline := headline m; text := text m; html := html m;
     sent_at := sent_at m; last_active_at := t;
     active_until := active_until m |}.

(** [self.save()] of an instance that has a primary key: the row of that
    key is written with every field of the instance. *)
Definition save (self : Message) : M unit :=
  modify_db (set_message_tbl (insert (msg_id self) self)).

(** The attribute [self.root]: [None] for a null key, else the row the key
    names, fetched from the table. *)
Definition Message_root (self : Message) : M (option Message) :=
  match root self with
  | None => mret None
  | Some r =>
      db ← get_db;
      match message_tbl db !! r with
      | Some m => mret (Some m)
      | None => raise DoesNotExist
      end
  end.

(** adds recipients to the message and updates the sender lists for all
    recipients *)
Definition add_recipients (self : Message) (recipients : list Group) : M unit :=
  modify_db (set_message_recipients (m2m_add (msg_id self) (group_id <$> recipients)));;
  for_each recipients (λ recipient,
    sender_list ← SenderList_get_or_create recipient;
    modify_db (set_senderlist_senders
                 (m2m_add (senderlist_id sender_list) [user_id (sender self)]))).

(** update the contributors info, meant to be used on a root message only *)
Definition update_senders_info (self : Message) : M Message :=
  let senders_names := Py.split_comma (senders_info self) in
  let senders_names :=
    if Py.contains (username (sender self)) senders_names
    then Py.remove (username (sender self)) senders_names
    else senders_names in
  let senders_names := username (sender self) :: senders_names in
  let self := set_senders_info (Py.slice_to 64 (Py.join_comma senders_names)) self in
  save self;;
  mret self.

(** unarchive message for all recipients:
    [self.memos.filter(status=ARCHIVED).update(status=SEEN)] *)
Definition unarchive_memo (self : Message) (memo : MessageMemo) : MessageMemo :=
  if decide (message memo = msg_id self ∧ status memo = ARCHIVED)
  then set_status SEEN memo else memo.

Definition unarchive (self : Message) : M unit :=
  modify_db (set_messagememo_tbl (fmap (unarchive_memo self))).

(** ** MessageManager *)

(** The clock.  [datetime.datetime.now()] is evaluated once for each
    [auto_now_add] field of a row that is inserted, and once more wherever
    the code calls it: a call is given the readings it makes, [now k] being
    reading number [k] of the call.  Nothing relates one reading to
    another. *)
Definition Clock := nat → nat.

(** The keyword arguments of [create], one key for every column of
    [Message] but the primary key, which the store hands out: [None] is a
    key that is absent.  [text] and [html] are nullable fields, so a present
    key may itself hold [None]; for the nullable [active_until] an absent key
    and a key holding [None] give the same row, and both are [None] here.
    What is passed as [html], [sent_at] or [last_active_at] never reaches the
    row: [create] replaces the first and the insert the other two. *)
Record kwargs := {
  kw_root : option Message;
  kw_parent : option Message;
  kw_message_type : option MessageType;
  kw_sender : option User;
  kw_senders_info : option string;
  kw_headline : option string;
  kw_text : option (option string);
  kw_html : option (option string);
  kw_sent_at : option nat;
  kw_last_active_at : option nat;
  kw_active_until : option nat
}.

Definition no_kwargs : kwargs :=
  {| kw_root := None; kw_parent := None; kw_message_type := None;
     kw_sender := None; kw_senders_info := None; kw_headline := None;
     kw_text := None; kw_html := None;
     kw_sent_at := None; kw_last_active_at := None;
     kw_active_until := None |}.

(** [create] of the parent manager on the keyword arguments: builds the instance,
    absent fields taking their defaults, and inserts it under a fresh primary
    key.  On the insert each [auto_now_add] field reads the clock for itself,
    [sent_at] before [last_active_at] (the order of the columns), whatever
    the keyword arguments hold for it, and the instance gets the value read.
    [sender] is not nullable: without it no row is inserted (Django refuses
    either when the instance is built or when the row is written; the model
    raises [IntegrityError]). *)
Definition Manager_create (now : Clock) (kw : kwargs) : M Message :=
  match kw_sender kw with
  | None => raise IntegrityError
  | Some s =>
      db ← get_db;
      let m := {| msg_id := next_message_id db;
                  message_type := default STORED (kw_message_type kw);
                  sender := s;
                  senders_info := default "" (kw_senders_info kw);
                  root := msg_id <$> kw_root kw;
                  parent := msg_id <$> kw_parent kw;
                  headline := default "" (kw_headline kw);
                  text := default None (kw_text kw);
                  html := default None (kw_html kw);
                  sent_at := now 0; last_active_at := now 1;
                  active_until := kw_active_until kw |} in
      modify_db (λ db, bump_message_id (set_message_tbl (insert (msg_id m) m) db));;
      mret m
  end.

(** The root chosen by [create] (lines 136-144). *)
Definition create_root (kw : kwargs) : M (option Message) :=
  match kw_root kw with
  | Some r => mret (Some r)
  | None =>
      match kw_parent kw with
      | Some parent =>
          parent_root ← Message_root parent;
          match parent_root with
          | Some r => mret (Some r)
          | None => mret (Some parent)
          end
      | None => mret None
      end
  end.

(** creates a message.  The result is the new instance together with the
    instance its [root] attribute holds (the object put in [kwargs]). *)
Definition create (now : Clock) (kw : kwargs) : M (Message * option Message) :=
  root ← create_root kw;
  text ← match kw_text kw with
         | Some t => mret t
         | None => raise (KeyError "text")
         end;
  let headline := match kw_headline kw with Some h => Some h | None => text end in
  headline ← match headline with
             | Some h => mret (Py.slice_to MAX_TITLE_LENGTH h)
             | None => raise TypeError
             end;
  let kw := {| kw_root := root; kw_parent := kw_parent kw;
               kw_message_type := kw_message_type kw;
               kw_sender := kw_sender kw;
               kw_senders_info := kw_senders_info kw;
               kw_headline := Some headline;
               kw_text := Some text;
               kw_html := Some (parse_message text);
               kw_sent_at := kw_sent_at kw;
               kw_last_active_at := kw_last_active_at kw;
               kw_active_until := kw_active_until kw |} in
  message ← Manager_create now kw;
  sender ← match kw_sender kw with
           | Some s => mret s
           | None => raise (KeyError "sender")
           end;
  MessageMemo_objects_create message sender SEEN;;
  mret (message, root).

(** creates a stored message and adds recipients *)
Definition create_thread (now : Clock) (sender : option User)
    (recipients : option (list Group)) (text : option string) : M Message :=
  match sender with
  | None => raise AttributeError
  | Some s =>
      '(message, _) ← create now
          {| kw_root := None; kw_parent := None;
             kw_message_type := Some STORED; kw_sender := Some s;
             kw_senders_info := Some (username s); kw_headline := None;
             kw_text := Some text; kw_html := None;
             kw_sent_at := None; kw_last_active_at := None;
             kw_active_until := None |};
      match recipients with
      | None => raise TypeError
      | Some rs => add_recipients message rs;; mret message
      end
  end.

(** [parent.sender], named apart from the argument [sender]. *)
Definition parent_sender (parent : Message) : User := sender parent.

Definition create_response (now : Clock) (sender : option User)
    (text : option string) (parent : option Message) : M Message :=
  '(message, message_root) ← create now
      {| kw_root := None; kw_parent := parent;
         kw_message_type := Some STORED; kw_sender := sender;
         kw_senders_info := None; kw_headline := None;
         kw_text := Some text; kw_html := None;
         kw_sent_at := None; kw_last_active_at := None;
         kw_active_until := None |};
  match parent with
  | None => raise AttributeError
  | Some parent =>
      db ← get_db;
      let recipients := set_of_groups (recipients_all db parent) in
      senders_group ← get_personal_group (parent_sender parent);
      let recipients := set_add senders_group recipients in
      add_recipients message recipients;;
      add_recipients parent [senders_group];;
      match message_root with
      | None => raise AttributeError
      | Some message_root =>
          let message_root := set_last_active_at (now 2) message_root in
          message_root ← update_senders_info message_root;
          unarchive message_root;;
          mret message
      end
  end.

(** ** Thread queries

    A queryset is evaluated to the list of message rows its SQL selects.
    A lookup through a many-valued relation ([recipients__in], [memos__status],
    [memos__user]) joins the related table, so a message comes once per
    matching combination of related rows; conditions on one relation given in
    one [Q] constrain the same related row.  A negated lookup through such a
    relation is a subquery: the message has no related row that matches. *)

Definition all_messages (db : DB) : list Message :=
  (map_to_list (message_tbl db)).*2.

(** [Message] joined with its recipient links. *)
Definition join_recipients (db : DB) : list (Message * nat) :=
  m ← all_messages db;
  link ← filter (λ link, link.1 = msg_id m) (message_recipients db);
  [(m, link.2)].

(** ... and with its memos ([related_name='memos']). *)
Definition join_recipients_memos (db : DB) : list (Message * nat * MessageMemo) :=
  row ← join_recipients db;
  memo ← filter (λ memo, message memo = msg_id row.1) (messagememo_tbl db);
  [(row, memo)].

(** [Q(root=None, message_type=Message.STORED, recipients__in=user_groups)] *)
Definition user_thread_filter (user_groups : list Group) (m : Message) (g : nat) : Prop :=
  root m = None ∧ message_type m = STORED ∧ g ∈ group_id <$> user_groups.

(** [Q(sender=sender)] *)
Definition Q_sender (s : User) (m : Message) : Prop :=
  user_id (sender m) = user_id s.

(** [filter]: [user_thread_filter], and [Q(sender=sender)] if a sender is given. *)
Definition thread_filter (user_groups : list Group) (by_sender : option User)
    (m : Message) (g : nat) : Prop :=
  user_thread_filter user_groups m g ∧
  match by_sender with Some s => Q_sender s m | None => True end.

(** [Q(memos__status=st, memos__user=recipient)] *)
Definition Q_memos (st : MemoStatus) (recipient : User) (memo : MessageMemo) : Prop :=
  status memo = st ∧ user_id (user memo) = user_id recipient.

(** [Q(memos__user=recipient)], as the subquery its negation compiles to. *)
Definition Q_memos_user (db : DB) (recipient : User) (m : Message) : Prop :=
  Exists (λ memo, message memo = msg_id m ∧ user_id (user memo) = user_id recipient)
         (messagememo_tbl db).

Global Instance user_thread_filter_dec gs m g : Decision (user_thread_filter gs m g).
Proof. unfold user_thread_filter. apply _. Defined.
Global Instance Q_sender_dec s m : Decision (Q_sender s m).
Proof. unfold Q_sender. apply _. Defined.
Global Instance thread_filter_dec gs s m g : Decision (thread_filter gs s m g).
Proof. unfold thread_filter. destruct s; apply _. Defined.
Global Instance Q_memos_dec st r memo : Decision (Q_memos st r memo).
Proof. unfold Q_memos. apply _. Defined.
Global Instance Q_memos_user_dec db r m : Decision (Q_memos_user db r m).
Proof. unfold Q_memos_user. apply _. Defined.

(** [self.filter(filter & Q(memos__status=st, memos__user=recipient))] *)
Definition filter_with_memo (db : DB) (user_groups : list Group)
    (by_sender : option User) (st : MemoStatus) (recipient : User) : list Message :=
  (λ row, row.1.1) <$>
    filter (λ row, thread_filter user_groups by_sender row.1.1 row.1.2 ∧
                   Q_memos st recipient row.2)
           (join_recipients_memos db).

(** [self.filter(filter & ~Q(memos__user=recipient))] *)
Definition filter_without_memo (db : DB) (user_groups : list Group)
    (by_sender : option User) (recipient : User) : list Message :=
  (λ row, row.1) <$>
    filter (λ row, thread_filter user_groups by_sender row.1 row.2 ∧
                   ¬ Q_memos_user db recipient row.1)
           (join_recipients db).

(** [(part1 | part2).distinct()]: the rows either queryset selects, each once. *)
Definition union_distinct (part1 part2 : list Message) : list Message :=
  remove_dups (part1 ++ part2).

Definition get_threads (db : DB) (recipient : option User) (sender : option User)
    (deleted : bool) : exn + list Message :=
  match recipient with
  | None => inl AttributeError
  | Some recipient =>
      let user_groups := groups_all db recipient in
      if deleted then
        inr (filter_with_memo db user_groups sender ARCHIVED recipient)
      else
        (* part1 - marked as non-archived *)
        let part1 := filter_with_memo db user_groups sender SEEN recipient in
        (* part2 - messages for the user without an attached memo *)
        let part2 := filter_without_memo db user_groups sender recipient in
        inr (union_distinct part1 part2)
  end.

(** ** The views of the thread query, in the words of the specification *)

Module Spec.

(** The message is a stored thread root addressed to one of the groups of
    [R], sent by [by_sender] when one is given. *)
Definition base_filter (db : DB) (R : User) (by_sender : option User)
    (m : Message) : Prop :=
  m ∈ all_messages db ∧
  root m = None ∧
  message_type m = STORED ∧
  (∃ g, g ∈ recipients_all db m ∧ g ∈ groups_all db R) ∧
  (∀ s, by_sender = Some s → user_id (sender m) = user_id s).

(** The message has a memo for [R] with status [st]. *)
Definition has_memo (db : DB) (R : User) (st : MemoStatus) (m : Message) : Prop :=
  ∃ memo, memo ∈ messagememo_tbl db ∧ message memo = msg_id m ∧
          user_id (user memo) = user_id R ∧ status memo = st.

(** The message has no memo for [R] at all. *)
Definition no_memo (db : DB) (R : User) (m : Message) : Prop :=
  ∀ memo, memo ∈ messagememo_tbl db → message memo = msg_id m →
          user_id (user memo) ≠ user_id R.

(** Each (user, message) pair has at most one memo. *)
Definition memo_unique (db : DB) : Prop :=
  ∀ i j m1 m2,
    messagememo_tbl db !! i = Some m1 → messagememo_tbl db !! j = Some m2 →
    user_id (user m1) = user_id (user m2) → message m1 = message m2 → i = j.

End Spec.


(** ** The writes of [create]

    The row [create] inserts, the memo it adds for the sender, and the
    database after both writes. *)

Definition created_message (now : Clock) (kw : kwargs) (db : DB)
    (r : option Message) (s : User) (txt : option string) (h : string) : Message :=
  {| msg_id := next_message_id db;
     message_type := default STORED (kw_message_type kw);
     sender := s;
     senders_info := default "" (kw_senders_info kw);
     root := msg_id <$> r;
     parent := msg_id <$> kw_parent kw;
     headline := h;
     text := txt;
     html := parse_message txt;
     sent_at := now 0; last_active_at := now 1;
     active_until := kw_active_until kw |}.

Definition self_memo (db : DB) (m : Message) (s : User) : MessageMemo :=
  {| memo_id := next_memo_id db; user := s; message := msg_id m; status := SEEN |}.

Definition with_message (m : Message) (db : DB) : DB :=
  bump_message_id (set_message_tbl (insert (msg_id m) m) db).

Definition with_memo (memo : MessageMemo) (db : DB) : DB :=
  bump_memo_id (set_messagememo_tbl (λ t, t ++ [memo]) db).

(** ** Frames

    [same_store db db']: the two databases differ at most in the sender
    index. *)
Definition same_store (db db' : DB) : Prop :=
  auth_group db' = auth_group db ∧
  auth_user_groups db' = auth_user_groups db ∧
  message_tbl db' = message_tbl db ∧
  message_recipients db' = message_recipients db ∧
  messagememo_tbl db' = messagememo_tbl db ∧
  next_message_id db' = next_message_id db ∧
  next_memo_id db' = next_memo_id db.

(** ** Integrity of the stored rows

    What the primary and foreign keys of the tables guarantee: a message row
    sits under its own id, ids are handed out increasingly, and a memo or a
    recipient link names a stored message. *)

Definition keys_ok (db : DB) : Prop :=
  map_Forall (λ i m, msg_id m = i ∧ i < next_message_id db) (message_tbl db).

Definition memo_fk (db : DB) : Prop :=
  Forall (λ memo, is_Some (message_tbl db !! message memo)) (messagememo_tbl db).

Definition recipients_fk (db : DB) : Prop :=
  Forall (λ link, is_Some (message_tbl db !! link.1)) (message_recipients db).

Definition integrity (db : DB) : Prop :=
  keys_ok db ∧ memo_fk db ∧ recipients_fk db.

Global Instance integrity_dec db : Decision (integrity db).
Proof. unfold integrity, keys_ok, memo_fk, recipients_fk. apply _. Defined.

(** ** Threads

    [topmost_ancestor tbl i r]: following the [parent] keys from message [i]
    ends at message [r], which has no parent. *)
Inductive topmost_ancestor (tbl : gmap nat Message) : nat → nat → Prop :=
| top_self i m :
    tbl !! i = Some m → parent m = None → topmost_ancestor tbl i i
| top_step i m p r :
    tbl !! i = Some m → parent m = Some p → topmost_ancestor tbl p r →
    topmost_ancestor tbl i r.

(** Two messages are in the same thread when their parent chains end at
    the same message. *)
Definition same_thread (tbl : gmap nat Message) (i j : nat) : Prop :=
  ∃ r, topmost_ancestor tbl i r ∧ topmost_ancestor tbl j r.

(** The root invariant: a message without a root has no parent, and a root
    key names the topmost ancestor, which is another message. *)
Definition root_ok (tbl : gmap nat Message) (i : nat) (m : Message) : Prop :=
  match root m with
  | None => parent m = None
  | Some r => r ≠ i ∧ topmost_ancestor tbl i r
  end.

Definition root_inv (db : DB) : Prop :=
  map_Forall (root_ok (message_tbl db)) (message_tbl db).

(** [instance_of tbl p]: the instance [p] was loaded from the table: a row
    of its id is stored, with the same [root] and [parent] keys (the other
    fields of an instance may be stale). *)
Definition instance_of (tbl : gmap nat Message) (p : Message) : Prop :=
  ∃ row, tbl !! msg_id p = Some row ∧ root row = root p ∧ parent row = parent p.

(** The states of the store reached from a store without messages by
    [create_thread] and [create_response] on loaded parents, whether the
    calls return or raise. *)
Inductive conversation : DB → Prop :=
| conv_start db :
    message_tbl db = ∅ → message_recipients db = [] → messagememo_tbl db = [] →
    conversation db
| conv_thread db now s rs txt :
    conversation db →
    conversation (create_thread now s rs txt db).1
| conv_response db now s txt p :
    conversation db →
    (∀ p', p = Some p' → instance_of (message_tbl db) p') →
    conversation (create_response now s txt p db).1.

(** ** A running example: Alice opens a thread to the staff group, of which
    Bob is a member, and Bob answers. *)

Module Example.

Definition alice : User := {| user_id := 1; username := "A" |}.
Definition bob : User := {| user_id := 2; username := "B" |}.
Definition alice_group : Group := {| group_id := 1; group_name := "_personal_1" |}.
Definition bob_group : Group := {| group_id := 2; group_name := "_personal_2" |}.
Definition staff : Group := {| group_id := 3; group_name := "staff" |}.

(** The clock that shows [t] at the first reading of a call and one more
    at every further reading. *)
Definition ticking (t : nat) : Clock := λ k, t + k.

Definition empty_db : DB :=
  {| auth_group := [alice_group; bob_group; staff];
     auth_user_groups := [(1, 1); (2, 2); (2, 3)];
     message_tbl := ∅; message_recipients := []; messagememo_tbl := [];
     senderlist_tbl := []; senderlist_senders := [];
     next_message_id := 1; next_memo_id := 1; next_senderlist_id := 1 |}.

(** The root message Alice's [create_thread] returns. *)
Definition thread_root : Message :=
  {| msg_id := 1; message_type := STORED; sender := alice;
     senders_info := "A"; root := None; parent := None;
     headline := "Hello there"; text := Some "Hello there";
     html := Some "Hello there"; sent_at := 10; last_active_at := 11;
     active_until := None |}.

(** The keyword arguments [create_thread] passes to [create], and the
    database after that [create]. *)
Definition thread_kwargs : kwargs :=
  {| kw_root := None; kw_parent := None;
     kw_message_type := Some STORED; kw_sender := Some alice;
     kw_senders_info := Some "A"; kw_headline := None;
     kw_text := Some (Some "Hello there"); kw_html := None;
     kw_sent_at := None; kw_last_active_at := None;
     kw_active_until := None |}.




Definition thread_db : DB :=
  (create_thread (ticking 10) (Some alice) (Some [staff]) (Some "Hello there") empty_db).1.

(** Bob's answer. *)
Definition reply : Message :=
  {| msg_id := 2; message_type := STORED; sender := bob;
     senders_info := ""; root := Some 1; parent := Some 1;
     headline := "Hi"; text := Some "Hi"; html := Some "Hi";
     sent_at := 20; last_active_at := 21; active_until := None |}.

Definition reply_db : DB :=
  (create_response (ticking 20) (Some bob) (Some "Hi") (Some thread_root) thread_db).1.

(** The thread root as stored after the answer. *)
Definition thread_root' : Message := set_last_active_at 22 thread_root.

(** Alice opens a second thread, which Bob archives. *)
Definition second_root : Message :=
  {| msg_id := 3; message_type := STORED; sender := alice;
     senders_info := "A"; root := None; parent := None;
     headline := "Second"; text := Some "Second"; html := Some "Second";
     sent_at := 30; last_active_at := 31; active_until := None |}.

Definition archived_db : DB :=
  set_messagememo_tbl
    (λ t, t ++ [{| memo_id := 4; user := bob; message := 3; status := ARCHIVED |}])
    (bump_memo_id
       (create_thread (ticking 30) (Some alice) (Some [staff]) (Some "Second") reply_db).1).

(** A message created with an explicit root and no parent. *)
Definition explicit_root_kwargs : kwargs :=
  {| kw_root := Some thread_root; kw_parent := None;
     kw_message_type := Some STORED; kw_sender := Some bob;
     kw_senders_info := None; kw_headline := None;
     kw_text := Some (Some "Hi"); kw_html := None;
     kw_sent_at := None; kw_last_active_at := None;
     kw_active_until := None |}.

Definition stray : Message :=
  {| msg_id := 2; message_type := STORED; sender := bob;
     senders_info := ""; root := Some 1; parent := None;
     headline := "Hi"; text := Some "Hi"; html := Some "Hi";
     sent_at := 20; last_active_at := 21; active_until := None |}.

Definition stray_db : DB := (create (ticking 20) explicit_root_kwargs thread_db).1.

(** The keyword arguments [create_response] passes for Bob's answer. *)
Definition reply_kwargs : kwargs :=
  {| kw_root := None; kw_parent := Some thread_root;
     kw_message_type := Some STORED; kw_sender := Some bob;
     kw_senders_info := None; kw_headline := None;
     kw_text := Some (Some "Hi"); kw_html := None;
     kw_sent_at := None; kw_last_active_at := None;
     kw_active_until := None |}.

Definition replied_db : DB := (create (ticking 20) reply_kwargs thread_db).1.

(** Keyword arguments with an empty text, and with a body of 100
    characters. *)
Definition empty_text_kwargs : kwargs :=
  {| kw_root := None; kw_parent := None;
     kw_message_type := Some STORED; kw_sender := Some alice;
     kw_senders_info := None; kw_headline := None;
     kw_text := Some (Some ""); kw_html := None;
     kw_sent_at := None; kw_last_active_at := None;
     kw_active_until := None |}.

Definition long_text_kwargs (body : string) : kwargs :=
  {| kw_root := None; kw_parent := None;
     kw_message_type := Some STORED; kw_sender := Some alice;
     kw_senders_info := None; kw_headline := None;
     kw_text := Some (Some body); kw_html := None;
     kw_sent_at := None; kw_last_active_at := None;
     kw_active_until := None |}.

(** A body of 100 characters. *)
Definition body100 : string :=
  "0123456789abcdefghijklmnopqrstuvwxyzABCDEFGHIJKLMNOPQRSTUVWXYZ0123456789abcdefghijklmnopqrstuvwxyzAB".

End Example.

(** ** The rest of the module

    The functions below complete the embedding: the batch lookup and the
    creation of personal groups, the sender index as [add_recipients] writes
    it and as [get_senders_for_user] reads it. *)

(** for a given list of users return their personal groups *)
Definition get_personal_groups_for_users (users : list User) (db : DB) : list Group :=
  let group_names := (λ u, GROUP_NAME_TPL (Py.str_of_nat (user_id u))) <$> users in
  filter (λ g, group_name g ∈ group_names) (auth_group db).

Definition set_auth_group (f : list Group → list Group) (db : DB) : DB :=
  {| auth_group := f (auth_group db); auth_user_groups := auth_user_groups db;
     message_tbl := message_tbl db;
     message_recipients := message_recipients db;
     messagememo_tbl := messagememo_tbl db;
     senderlist_tbl := senderlist_tbl db;
     senderlist_senders := senderlist_senders db;
     next_message_id := next_message_id db;
     next_memo_id := next_memo_id db;
     next_senderlist_id := next_senderlist_id db |}.

(** [Group(name=name).save()]: the name of a group is declared unique by
    [django.contrib.auth], so a second group of one name is refused; the new
    row gets a primary key above those in the table. *)
Definition Group_save (name : string) : M Group :=
  db ← get_db;
  match filter (λ g, group_name g = name) (auth_group db) with
  | [] =>
      let group := {| group_id := S (max_list_with group_id (auth_group db));
                      group_name := name |} in
      modify_db (set_auth_group (λ t, t ++ [group]));;
      mret group
  | _ => raise IntegrityError
  end.

(** creates a personal group for the user *)
Definition create_personal_group (u : User) : M Group :=
  Group_save (GROUP_NAME_TPL (Py.str_of_nat (user_id u))).

(** The body of the loop of [add_recipients]: the sender list of the
    recipient is fetched or created, and the sender of the message added. *)
Definition record_send (self : Message) (recipient : Group) : M unit :=
  sender_list ← SenderList_get_or_create recipient;
  modify_db (set_senderlist_senders
               (m2m_add (senderlist_id sender_list) [user_id (sender self)])).

(** [sender_list.senders] links user [uid] to the sender list of group [gid]. *)
Definition in_sender_index (db : DB) (gid uid : nat) : Prop :=
  ∃ sl, sl ∈ senderlist_tbl db ∧ recipient sl = gid ∧
        (senderlist_id sl, uid) ∈ senderlist_senders db.

(** [recipient] is declared unique on [SenderList]. *)
Definition senderlist_unique (db : DB) : Prop :=
  NoDup (recipient <$> senderlist_tbl db).

Global Instance senderlist_unique_dec db : Decision (senderlist_unique db).
Proof. unfold senderlist_unique. apply _. Defined.

(** [SenderListManager.get_senders_for_user]: returns query set of [User].
    The user table belongs to [django.contrib.auth] and is passed in.  The
    query of sender ids joins the lists with their senders; a list without
    senders contributes a null, which no user id equals. *)
Definition get_senders_for_user (auth_user : list User) (db : DB)
    (u : option User) : exn + list User :=
  match u with
  | None => inl AttributeError
  | Some u =>
      let user_groups := groups_all db u in
      let lists := filter (λ sl, recipient sl ∈ group_id <$> user_groups)
                          (senderlist_tbl db) in
      let user_ids :=
        remove_dups
          (sl ← lists;
           link ← filter (λ link, link.1 = senderlist_id sl) (senderlist_senders db);
           [link.2]) in
      inr (filter (λ x, user_id x ∈ user_ids) auth_user)
  end.

(** The keyword arguments [create_response] passes to [create]. *)
Definition response_kwargs (who : option User) (txt : option string)
    (p : option Message) : kwargs :=
  {| kw_root := None; kw_parent := p;
     kw_message_type := Some STORED; kw_sender := who;
     kw_senders_info := None; kw_headline := None;
     kw_text := Some txt; kw_html := None;
     kw_sent_at := None; kw_last_active_at := None;
     kw_active_until := None |}.

(** The keyword arguments [create_thread] passes to [create]. *)
Definition thread_kwargs (who : User) (txt : option string) : kwargs :=
  {| kw_root := None; kw_parent := None;
     kw_message_type := Some STORED; kw_sender := Some who;
     kw_senders_info := Some (username who); kw_headline := None;
     kw_text := Some txt; kw_html := None;
     kw_sent_at := None; kw_last_active_at := None;
     kw_active_until := None |}.

(** The value [update_senders_info] gives to [senders_info], from the name
    [u] of the sender and the old value [v]. *)
Definition prepend_name (u v : string) : string :=
  Py.slice_to 64
    (Py.join_comma
       (u :: (if Py.contains u (Py.split_comma v)
              then Py.remove u (Py.split_comma v)
              else Py.split_comma v))).

Definition new_senders_info (self : Message) : string :=
  prepend_name (username (sender self)) (senders_info self).

(** The root instance as [create_response] saves it: [last_active_at] set
    to the time [t] read for it, then [senders_info] updated. *)
Definition refreshed_root (t : nat) (message_root : Message) : Message :=
  set_senders_info (new_senders_info (set_last_active_at t message_root))
                   (set_last_active_at t message_root).

(** [memo_step db db']: the memo table of [db'] is that of [db], with at
    most one memo added, on the message id [db] hands out next, and with
    statuses possibly changed. *)
Definition memo_step (db db' : DB) : Prop :=
  ∃ (added : list MessageMemo) (f : MessageMemo → MessageMemo),
    messagememo_tbl db' = f <$> (messagememo_tbl db ++ added) ∧
    (∀ memo, user (f memo) = user memo ∧ message (f memo) = message memo) ∧
    (added = [] ∨ ∃ memo, added = [memo] ∧ message memo = next_message_id db).

(** No character of the string is the comma of [senders_info]. *)
Fixpoint comma_free (s : string) : Prop :=
  match s with
  | EmptyString => True
  | String c r => Ascii.eqb c ","%char = false ∧ comma_free r
  end.

(** ** Further examples *)

Module Scenario.

(** The user table of the running example. *)
Definition users : list User := [Example.alice; Example.bob].

(** Carol has no personal group yet. *)
Definition carol : User := {| user_id := 7; username := "C" |}.

Definition carol_group : Group := {| group_id := 4; group_name := "_personal_7" |}.

Definition carol_db : DB := (create_personal_group carol Example.empty_db).1.

(** A store in which Alice's thread root has been archived by Bob. *)
Definition bob_archived_db : DB :=
  set_messagememo_tbl
    (λ t, t ++ [{| memo_id := 2; user := Example.bob; message := 1;
                   status := ARCHIVED |}])
    (bump_memo_id Example.thread_db).

(** An answer of Bob created with an expiry, and with timestamps of his
    own, in place of which the insert reads the clock. *)
Definition timed_kwargs : kwargs :=
  {| kw_root := None; kw_parent := Some Example.thread_root;
     kw_message_type := Some TEMPORARY; kw_sender := Some Example.bob;
     kw_senders_info := None; kw_headline := None;
     kw_text := Some (Some "Hi"); kw_html := Some (Some "<b>Hi</b>");
     kw_sent_at := Some 1; kw_last_active_at := Some 1;
     kw_active_until := Some 99 |}.

Definition timed_reply : Message :=
  {| msg_id := 2; message_type := TEMPORARY; sender := Example.bob;
     senders_info := ""; root := Some 1; parent := Some 1;
     headline := "Hi"; text := Some "Hi"; html := Some "Hi";
     sent_at := 20; last_active_at := 21; active_until := Some 99 |}.

Definition timed_db : DB :=
  (create (Example.ticking 20) timed_kwargs Example.thread_db).1.

(** Bob's answer after [update_senders_info] ran on it: its [senders_info]
    was empty. *)
Definition headed_reply : Message := set_senders_info "B," Example.reply.

Definition headed_db : DB := (update_senders_info Example.reply Example.reply_db).1.

End Scenario.
(** ** Facts on the joins *)

Lemma elem_of_join_recipients db m g :
  (m, g) ∈ join_recipients db ↔
  m ∈ all_messages db ∧ (msg_id m, g) ∈ message_recipients db.
Proof.
  unfold join_recipients. rewrite list_elem_of_bind. split.
  - intros (m' & Hin & Hm'). apply list_elem_of_bind in Hin as (link & Hin & Hlink).
    apply list_elem_of_singleton in Hin. injection Hin as -> ->.
    apply list_elem_of_filter in Hlink as [Hk Hlink].
    split; [done|]. rewrite <- Hk. by destruct link.
  - intros [Hm Hl]. exists m. split; [|done].
    apply list_elem_of_bind. exists (msg_id m, g). split; [by left|].
    apply list_elem_of_filter. done.
Qed.

Lemma elem_of_join_recipients_memos db m g memo :
  (m, g, memo) ∈ join_recipients_memos db ↔
  (m, g) ∈ join_recipients db ∧ memo ∈ messagememo_tbl db ∧ message memo = msg_id m.
Proof.
  unfold join_recipients_memos. rewrite list_elem_of_bind. split.
  - intros (row & Hin & Hrow). apply list_elem_of_bind in Hin as (memo' & Hin & Hmemo).
    apply list_elem_of_singleton in Hin. injection Hin as <- ->.
    apply list_elem_of_filter in Hmemo as [Hk Hmemo]. done.
  - intros (Hrow & Hmemo & Hk). exists (m, g). split; [|done].
    apply list_elem_of_bind. exists memo. split; [by left|].
    apply list_elem_of_filter. done.
Qed.

Lemma recipients_intersect db R m :
  (∃ g, (msg_id m, g) ∈ message_recipients db ∧ g ∈ group_id <$> groups_all db R) ↔
  (∃ g, g ∈ recipients_all db m ∧ g ∈ groups_all db R).
Proof.
  unfold recipients_all, groups_all. split.
  - intros (g & Hlink & Hg). apply list_elem_of_fmap in Hg as (grp & -> & Hgrp).
    exists grp. split; [|done].
    apply list_elem_of_filter in Hgrp as [_ Hgrp]. by apply list_elem_of_filter.
  - intros (grp & Hrec & Hgrp). exists (group_id grp).
    apply list_elem_of_filter in Hrec as [Hlink _]. split; [done|].
    apply list_elem_of_fmap. by exists grp.
Qed.

Lemma thread_filter_base db R by_sender m :
  m ∈ all_messages db →
  (∃ g, (msg_id m, g) ∈ message_recipients db ∧
        thread_filter (groups_all db R) by_sender m g) ↔
  Spec.base_filter db R by_sender m.
Proof.
  intros Hm. unfold Spec.base_filter, thread_filter, user_thread_filter, Q_sender.
  rewrite <- recipients_intersect. split.
  - intros (g & Hlink & (Hroot & Hty & Hg) & Hs). repeat split; try done.
    + by exists g.
    + intros s ->. done.
  - intros (_ & Hroot & Hty & (g & Hlink & Hg) & Hs). exists g.
    repeat split; try done. destruct by_sender; [by apply Hs|done].
Qed.

Lemma Q_memos_user_no_memo db R m :
  ¬ Q_memos_user db R m ↔ Spec.no_memo db R m.
Proof.
  unfold Q_memos_user, Spec.no_memo. rewrite Exists_exists. split.
  - intros Hno memo Hin Hk Hu. apply Hno. by exists memo.
  - intros Hno (memo & Hin & Hk & Hu). by apply (Hno memo).
Qed.

Lemma elem_of_filter_with_memo db R by_sender st m :
  m ∈ filter_with_memo db (groups_all db R) by_sender st R ↔
  Spec.base_filter db R by_sender m ∧ Spec.has_memo db R st m.
Proof.
  unfold filter_with_memo. rewrite list_elem_of_fmap. split.
  - intros ([[m' g] memo] & -> & Hrow). simpl.
    apply list_elem_of_filter in Hrow as [[Hf [Hst Hu]] Hrow]. simpl in *.
    apply elem_of_join_recipients_memos in Hrow as (Hrow & Hmemo & Hk).
    apply elem_of_join_recipients in Hrow as [Hm Hlink]. split.
    + apply thread_filter_base; [done|]. by exists g.
    + by exists memo.
  - intros [Hbase (memo & Hmemo & Hk & Hu & Hst)].
    pose proof Hbase as (Hm & _).
    apply thread_filter_base in Hbase as (g & Hlink & Hf); [|done].
    exists (m, g, memo). split; [done|].
    apply list_elem_of_filter. split; [done|].
    apply elem_of_join_recipients_memos. split; [|done].
    by apply elem_of_join_recipients.
Qed.

Lemma elem_of_filter_without_memo db R by_sender m :
  m ∈ filter_without_memo db (groups_all db R) by_sender R ↔
  Spec.base_filter db R by_sender m ∧ Spec.no_memo db R m.
Proof.
  unfold filter_without_memo. rewrite list_elem_of_fmap. split.
  - intros ([m' g] & -> & Hrow). simpl.
    apply list_elem_of_filter in Hrow as [[Hf Hno] Hrow]. simpl in *.
    apply elem_of_join_recipients in Hrow as [Hm Hlink]. split.
    + apply thread_filter_base; [done|]. by exists g.
    + by apply Q_memos_user_no_memo.
  - intros [Hbase Hno]. pose proof Hbase as (Hm & _).
    apply thread_filter_base in Hbase as (g & Hlink & Hf); [|done].
    exists (m, g). split; [done|].
    apply list_elem_of_filter. split.
    + split; [done|]. by apply Q_memos_user_no_memo.
    + by apply elem_of_join_recipients.
Qed.

(** C1. For every recipient [R], [get_threads] returns a result; with
    [deleted = false] it is the duplicate-free union of the base-filtered
    messages that have a SEEN memo for [R] and of those that have no memo for
    [R] at all; with [deleted = true] it holds exactly the base-filtered
    messages that have an ARCHIVED memo for [R].  The base filter keeps the
    stored messages with a null root whose recipients meet the groups of [R],
    sent by the given sender when there is one. *)
Theorem get_threads_views (db : DB) (R : User) (by_sender : option User) (deleted : bool) :
  ∃ threads,
    get_threads db (Some R) by_sender deleted = inr threads ∧
    (∀ m, m ∈ threads ↔
          Spec.base_filter db R by_sender m ∧
          if deleted then Spec.has_memo db R ARCHIVED m
          else Spec.has_memo db R SEEN m ∨ Spec.no_memo db R m) ∧
    (deleted = false → NoDup threads).
Proof.
  destruct deleted; simpl; eexists; (split; [reflexivity|]); split.
  - intros m. apply elem_of_filter_with_memo.
  - done.
  - intros m. unfold union_distinct.
    rewrite elem_of_remove_dups, elem_of_app,
      elem_of_filter_with_memo, elem_of_filter_without_memo.
    tauto.
  - intros _. apply NoDup_remove_dups.
Qed.

(** C9. When each (user, message) pair has at most one memo, the inbox view
    and the deleted view of a recipient (same optional sender filter) share
    no thread root. *)
Theorem get_threads_disjoint (db : DB) (R : User) (by_sender : option User)
    (inbox archived : list Message) (m : Message) :
  Spec.memo_unique db →
  get_threads db (Some R) by_sender false = inr inbox →
  get_threads db (Some R) by_sender true = inr archived →
  m ∈ inbox → m ∉ archived.
Proof.
  intros Huniq Hinbox Harch Hin Hout. simpl in *.
  injection Hinbox as <-. injection Harch as <-.
  apply elem_of_filter_with_memo in Hout as [_ (a & Ha & Hka & Hua & Hsa)].
  unfold union_distinct in Hin.
  rewrite elem_of_remove_dups, elem_of_app in Hin.
  destruct Hin as [Hin|Hin].
  - apply elem_of_filter_with_memo in Hin as [_ (s & Hs & Hks & Hus & Hss)].
    apply list_elem_of_lookup in Ha as [i Hi].
    apply list_elem_of_lookup in Hs as [j Hj].
    assert (i = j) as ->
      by (apply (Huniq i j a s Hi Hj); congruence).
    congruence.
  - apply elem_of_filter_without_memo in Hin as [_ Hno].
    by apply (Hno a).
Qed.

Lemma get_threads_disjoint_witness :
  Spec.memo_unique Example.archived_db ∧
  get_threads Example.archived_db (Some Example.bob) None false
    = inr [Example.thread_root'] ∧
  get_threads Example.archived_db (Some Example.bob) None true
    = inr [Example.second_root] ∧
  Example.thread_root' ∉ [Example.second_root].
Proof.
  assert (Spec.memo_unique Example.archived_db) as Huniq.
  { intros i j m1 m2.
    destruct i as [|[|[|[|i]]]], j as [|[|[|[|j]]]];
      vm_compute; intros; simplify_eq; done. }
  split; [exact Huniq|].
  split; [vm_compute; reflexivity|]. split; [vm_compute; reflexivity|].
  apply (get_threads_disjoint Example.archived_db Example.bob None
           [Example.thread_root'] [Example.second_root] Example.thread_root' Huniq);
    [vm_compute; reflexivity | vm_compute; reflexivity | by left].
Defined.

(** ** Unarchive *)

Lemma unarchive_run self db :
  unarchive self db =
  (set_messagememo_tbl (fmap (unarchive_memo self)) db, inr tt).
Proof. reflexivity. Qed.

Lemma unarchive_memo_other self memo :
  message memo ≠ msg_id self → unarchive_memo self memo = memo.
Proof. intros Hne. unfold unarchive_memo. case_decide; [|done]. tauto. Qed.

Lemma unarchive_memo_seen self memo :
  status memo = SEEN → unarchive_memo self memo = memo.
Proof.
  intros Hs. unfold unarchive_memo. case_decide as H; [|done].
  destruct H as [_ H]. congruence.
Qed.

Lemma unarchive_memo_keys self memo :
  memo_id (unarchive_memo self memo) = memo_id memo ∧
  user (unarchive_memo self memo) = user memo ∧
  message (unarchive_memo self memo) = message memo.
Proof. unfold unarchive_memo. by case_decide. Qed.

Lemma set_messagememo_tbl_id db f :
  f (messagememo_tbl db) = messagememo_tbl db → set_messagememo_tbl f db = db.
Proof. intros H. destruct db. unfold set_messagememo_tbl. simpl in *. by rewrite H. Qed.

(** C5. [unarchive] always returns.  The memo table keeps its rows in
    place: a memo of the message whose status was ARCHIVED is afterwards the
    memo of the same id, user and message with status SEEN; a memo of the
    message that was SEEN is unchanged; so every memo of the message is SEEN
    afterwards.  A user without a memo on the message still has none; and
    when no memo of the message is archived the database is left as it
    was. *)
Theorem unarchive_transitions (self : Message) (db : DB) :
  ∃ db',
    unarchive self db = (db', inr tt) ∧
    length (messagememo_tbl db') = length (messagememo_tbl db) ∧
    (∀ i memo,
       messagememo_tbl db !! i = Some memo → message memo = msg_id self →
       status memo = ARCHIVED →
       messagememo_tbl db' !! i =
         Some {| memo_id := memo_id memo; user := user memo;
                 message := message memo; status := SEEN |}) ∧
    (∀ i memo,
       messagememo_tbl db !! i = Some memo → message memo = msg_id self →
       status memo = SEEN →
       messagememo_tbl db' !! i = Some memo) ∧
    (∀ memo', memo' ∈ messagememo_tbl db' → message memo' = msg_id self →
              status memo' = SEEN) ∧
    (∀ U, memos_of db U (msg_id self) = [] → memos_of db' U (msg_id self) = []) ∧
    ((∀ memo, memo ∈ messagememo_tbl db → message memo = msg_id self →
              status memo = SEEN) → db' = db).
Proof.
  eexists. split; [apply unarchive_run|]. simpl.
  split; [apply length_fmap|]. split; [|split; [|split; [|split]]].
  - intros i memo Hi Hk Hs. rewrite list_lookup_fmap, Hi. simpl. f_equal.
    unfold unarchive_memo. case_decide as H; [|tauto].
    reflexivity.
  - intros i memo Hi Hk Hs. rewrite list_lookup_fmap, Hi. simpl. f_equal.
    by apply unarchive_memo_seen.
  - intros memo' Hin Hk.
    apply list_elem_of_fmap in Hin as (memo & -> & _).
    unfold unarchive_memo in *. case_decide as H; [done|].
    destruct (status memo) eqn:Hs; [done|]. simpl in Hk. tauto.
  - intros U Hnone. unfold memos_of in *. simpl.
    apply elem_of_nil_inv. intros memo' Hin.
    apply list_elem_of_filter in Hin as [[Hu Hk] Hin].
    apply list_elem_of_fmap in Hin as (memo & -> & Hin).
    destruct (unarchive_memo_keys self memo) as (_ & Hu' & Hk').
    assert (memo ∈ filter (λ memo, user_id (user memo) = user_id U ∧
                                   message memo = msg_id self) (messagememo_tbl db))
      as Hold by (apply list_elem_of_filter; split; [split; congruence|done]).
    rewrite Hnone in Hold. by apply elem_of_nil in Hold.
  - intros Hseen. apply set_messagememo_tbl_id.
    rewrite <- (list_fmap_id (messagememo_tbl db)) at 2.
    apply list_fmap_ext. intros i memo Hi. simpl.
    destruct (decide (message memo = msg_id self)) as [Hk|Hk].
    + apply unarchive_memo_seen, Hseen; [|done].
      apply list_elem_of_lookup. by exists i.
    + by apply unarchive_memo_other.
Qed.

(** The thread Bob archived: [unarchive] on its root turns his memo to
    SEEN, leaves Alice's SEEN memo as it is, and gives nobody else a memo. *)
Lemma unarchive_archived_thread :
  messagememo_tbl Scenario.bob_archived_db =
    [{| memo_id := 1; user := Example.alice; message := 1; status := SEEN |};
     {| memo_id := 2; user := Example.bob; message := 1; status := ARCHIVED |}] ∧
  (unarchive Example.thread_root Scenario.bob_archived_db).2 = inr tt ∧
  messagememo_tbl (unarchive Example.thread_root Scenario.bob_archived_db).1 =
    [{| memo_id := 1; user := Example.alice; message := 1; status := SEEN |};
     {| memo_id := 2; user := Example.bob; message := 1; status := SEEN |}].
Proof.
  split; [vm_compute; reflexivity|]. split; vm_compute; reflexivity.
Qed.

(** C10. [unarchive] writes nothing but the status of memos whose message is
    the given one: every other table and counter is as before, a memo of any
    other message (a reply in the thread, archived or not) is unchanged, and a
    memo of the message keeps its id, user and message. *)
Theorem unarchive_frame (self : Message) (db : DB) :
  ∃ db',
    unarchive self db = (db', inr tt) ∧
    message_tbl db' = message_tbl db ∧
    message_recipients db' = message_recipients db ∧
    auth_group db' = auth_group db ∧
    auth_user_groups db' = auth_user_groups db ∧
    senderlist_tbl db' = senderlist_tbl db ∧
    senderlist_senders db' = senderlist_senders db ∧
    next_message_id db' = next_message_id db ∧
    next_memo_id db' = next_memo_id db ∧
    next_senderlist_id db' = next_senderlist_id db ∧
    length (messagememo_tbl db') = length (messagememo_tbl db) ∧
    (∀ i memo,
       messagememo_tbl db !! i = Some memo → message memo ≠ msg_id self →
       messagememo_tbl db' !! i = Some memo) ∧
    (∀ i memo,
       messagememo_tbl db !! i = Some memo →
       ∃ memo', messagememo_tbl db' !! i = Some memo' ∧
                memo_id memo' = memo_id memo ∧ user memo' = user memo ∧
                message memo' = message memo).
Proof.
  eexists. split; [apply unarchive_run|]. simpl.
  repeat (split; [reflexivity|]). split; [apply length_fmap|]. split.
  - intros i memo Hi Hk. rewrite list_lookup_fmap, Hi. simpl.
    by rewrite unarchive_memo_other.
  - intros i memo Hi. exists (unarchive_memo self memo).
    rewrite list_lookup_fmap, Hi. split; [done|]. apply unarchive_memo_keys.
Qed.

(** ** Running [create] *)

Lemma create_root_db kw db : (create_root kw db).1 = db.
Proof.
  unfold create_root, Message_root.
  destruct (kw_root kw); [done|]. destruct (kw_parent kw) as [p|]; [|done].
  destruct (root p) as [r|]; [|done].
  run_M. by destruct (message_tbl db !! r).
Qed.

(** [create], step by step: which exception stops it, and what it has
    written by then. *)
Lemma create_run now kw db :
  create now kw db =
  match (create_root kw db).2 with
  | inl e => (db, inl e)
  | inr r =>
      match kw_text kw with
      | None => (db, inl (KeyError "text"))
      | Some txt =>
          match (match kw_headline kw with Some h => Some h | None => txt end) with
          | None => (db, inl TypeError)
          | Some h =>
              match kw_sender kw with
              | None => (db, inl IntegrityError)
              | Some s =>
                  let m := created_message now kw db r s txt
                             (Py.slice_to MAX_TITLE_LENGTH h) in
                  match memos_of db s (next_message_id db) with
                  | [] => (with_memo (self_memo db m s) (with_message m db),
                           inr (m, r))
                  | _ => (with_message m db, inl IntegrityError)
                  end
              end
          end
      end
  end.
Proof.
  unfold create. unfold mbind at 1. unfold M_bind at 1.
  pose proof (create_root_db kw db) as Hdb.
  destruct (create_root kw db) as [db1 [e|r]]; simpl in Hdb; subst db1; [done|].
  simpl. destruct (kw_text kw) as [txt|]; [|done].
  unfold mbind at 1. unfold M_bind at 1. unfold mret at 1. unfold M_ret at 1.
  destruct (match kw_headline kw with Some h => Some h | None => txt end) as [h|];
    [|done].
  unfold mbind at 1. unfold M_bind at 1. unfold mret at 1. unfold M_ret at 1.
  unfold mbind at 1. unfold M_bind at 1. unfold Manager_create. simpl.
  destruct (kw_sender kw) as [s|]; [|done].
  unfold MessageMemo_objects_create, memos_of. run_M.
  by destruct (filter _ (messagememo_tbl db)).
Qed.

Lemma integrity_fresh_memo db s :
  integrity db → memos_of db s (next_message_id db) = [].
Proof.
  intros (Hkeys & Hfk & _). apply elem_of_nil_inv. intros memo Hin.
  apply list_elem_of_filter in Hin as [[_ Hk] Hin].
  unfold memo_fk in Hfk. rewrite Forall_forall in Hfk.
  destruct (Hfk memo Hin) as [m Hm].
  apply Hkeys in Hm as [_ Hlt]. lia.
Qed.

Lemma integrity_fresh_key db :
  integrity db → message_tbl db !! next_message_id db = None.
Proof.
  intros (Hkeys & _). destruct (message_tbl db !! next_message_id db) as [m|] eqn:Hm;
    [|done].
  apply Hkeys in Hm as [_ Hlt]. lia.
Qed.




(** ** Slices *)

Lemma slice_to_length n s :
  String.length (Py.slice_to n s) = min n (String.length s).
Proof.
  unfold Py.slice_to. revert n.
  induction s as [|c s IH]; intros [|n]; simpl; try done.
  by rewrite IH.
Qed.

Lemma slice_to_get n s i :
  i < n → String.get i (Py.slice_to n s) = String.get i s.
Proof.
  unfold Py.slice_to. revert n i.
  induction s as [|c s IH]; intros [|n] i Hi; simpl; try done; try lia.
  destruct i as [|i]; [done|]. apply IH. lia.
Qed.

Lemma create_root_exn kw db e :
  (create_root kw db).2 = inl e → e = DoesNotExist.
Proof.
  unfold create_root, Message_root.
  destruct (kw_root kw); [done|]. destruct (kw_parent kw) as [p|]; [|done].
  destruct (root p) as [r|]; [|done].
  run_M. destruct (message_tbl db !! r); [done|]. by intros [= <-].
Qed.

(** When its root is found, a [create] with a sender and a text succeeds on
    a database with key integrity. *)
Lemma create_succeeds now kw db r s t :
  integrity db →
  (create_root kw db).2 = inr r →
  kw_sender kw = Some s →
  kw_text kw = Some (Some t) →
  create now kw db =
    (let m := created_message now kw db r s (Some t)
                (Py.slice_to MAX_TITLE_LENGTH (default t (kw_headline kw))) in
     (with_memo (self_memo db m s) (with_message m db), inr (m, r))).
Proof.
  intros Hint Hroot Hs Ht. rewrite create_run, Hroot, Ht, Hs.
  rewrite (integrity_fresh_memo db s Hint).
  by destruct (kw_headline kw).
Qed.

(** C8. A [create] with a sender and a text stores a message whose headline
    is the first 80 characters of the headline argument, or of the text when
    no headline is given: it is as long as the source up to 80 characters and
    agrees with it at every position below 80; a source of 100 characters
    gives a headline of exactly 80. *)
Theorem create_headline (now : Clock) (kw : kwargs) (db : DB)
    (r : option Message) (s : User) (t : string) :
  integrity db →
  (create_root kw db).2 = inr r →
  kw_sender kw = Some s →
  kw_text kw = Some (Some t) →
  ∃ db' m src,
    create now kw db = (db', inr (m, r)) ∧
    message_tbl db' !! msg_id m = Some m ∧
    src = default t (kw_headline kw) ∧
    headline m = Py.slice_to 80 src ∧
    String.length (headline m) = min 80 (String.length src) ∧
    (∀ i, i < 80 → String.get i (headline m) = String.get i src) ∧
    (String.length src = 100 → String.length (headline m) = 80).
Proof.
  intros Hint Hroot Hs Ht.
  rewrite (create_succeeds now kw db r s t Hint Hroot Hs Ht). simpl.
  eexists _, _, _. split; [reflexivity|]. simpl.
  split; [apply lookup_insert_eq|]. split; [reflexivity|].
  split; [reflexivity|]. split; [apply slice_to_length|].
  split; [intros i Hi; by apply slice_to_get|].
  intros Hlen. rewrite slice_to_length, Hlen. reflexivity.
Qed.

Lemma create_headline_witness :
  integrity Example.empty_db ∧
  ∃ db' m src,
    create (Example.ticking 10) (Example.long_text_kwargs Example.body100) Example.empty_db
      = (db', inr (m, None)) ∧
    message_tbl db' !! msg_id m = Some m ∧
    src = Example.body100 ∧
    headline m = Py.slice_to 80 src ∧
    String.length (headline m) = min 80 (String.length src) ∧
    (∀ i, i < 80 → String.get i (headline m) = String.get i src) ∧
    (String.length src = 100 → String.length (headline m) = 80).
Proof.
  assert (integrity Example.empty_db) as Hint
    by (apply (bool_decide_unpack _); vm_compute; exact I).
  split; [exact Hint|].
  apply (create_headline (Example.ticking 10) (Example.long_text_kwargs Example.body100)
           Example.empty_db None Example.alice Example.body100 Hint);
    reflexivity.
Defined.

Lemma update_senders_info_run self db :
  ∃ db' self',
    update_senders_info self db = (db', inr self') ∧
    (String.length (senders_info self') ≤ 64)%nat.
Proof.
  unfold update_senders_info, save. run_M.
  eexists _, _. split; [reflexivity|]. simpl.
  rewrite slice_to_length. lia.
Qed.

(** C7, as the code has it. [create] never raises [ValidationError].  When
    its root is found: a missing text raises [KeyError]; a text of [None]
    without a headline raises [TypeError]; both leave the database as it
    was.  A text that is a string, the empty string too, is accepted
    whatever its length, and the headline is cut without an error.  Cutting
    [senders_info] raises nothing either. *)
Theorem create_text_errors (now : Clock) (kw : kwargs) (db : DB) (r : option Message) :
  (create_root kw db).2 = inr r →
  (create now kw db).2 ≠ inl ValidationError ∧
  (kw_text kw = None → create now kw db = (db, inl (KeyError "text"))) ∧
  (kw_text kw = Some None → kw_headline kw = None →
   create now kw db = (db, inl TypeError)) ∧
  (∀ t s, integrity db → kw_text kw = Some (Some t) → kw_sender kw = Some s →
     ∃ db' m, create now kw db = (db', inr (m, r)) ∧
              message_tbl db' !! msg_id m = Some m ∧
              text m = Some t ∧
              headline m = Py.slice_to 80 (default t (kw_headline kw))) ∧
  (∀ self db0, ∃ db1 self',
     update_senders_info self db0 = (db1, inr self') ∧
     senders_info self' =
       Py.slice_to 64 (Py.join_comma
         (username (sender self) ::
          (if Py.contains (username (sender self)) (Py.split_comma (senders_info self))
           then Py.remove (username (sender self)) (Py.split_comma (senders_info self))
           else Py.split_comma (senders_info self))))).
Proof.
  intros Hroot. repeat split.
  - rewrite create_run, Hroot.
    destruct (kw_text kw) as [txt|]; [|done].
    destruct (match kw_headline kw with Some h => Some h | None => txt end)
      as [h|]; [|done].
    destruct (kw_sender kw) as [s|]; [|done]. simpl.
    by destruct (memos_of db s (next_message_id db)).
  - intros Ht. by rewrite create_run, Hroot, Ht.
  - intros Ht Hh. by rewrite create_run, Hroot, Ht, Hh.
  - intros t s Hint Ht Hs.
    rewrite (create_succeeds now kw db r s t Hint Hroot Hs Ht). simpl.
    eexists _, _. split; [reflexivity|]. simpl.
    split; [apply lookup_insert_eq|]. done.
  - intros self db0. unfold update_senders_info, save. run_M.
    eexists _, _. split; reflexivity.
Qed.

Lemma create_text_errors_witness :
  (create (Example.ticking 10) Example.empty_text_kwargs Example.empty_db).2 ≠ inl ValidationError ∧
  ∃ db' m,
    create (Example.ticking 10) Example.empty_text_kwargs Example.empty_db = (db', inr (m, None)) ∧
    message_tbl db' !! msg_id m = Some m ∧
    text m = Some "" ∧ headline m = "".
Proof.
  assert (integrity Example.empty_db) as Hint
    by (apply (bool_decide_unpack _); vm_compute; exact I).
  destruct (create_text_errors (Example.ticking 10) Example.empty_text_kwargs Example.empty_db None
              eq_refl) as (Hval & _ & _ & Hok & _).
  split; [exact Hval|].
  exact (Hok "" Example.alice Hint eq_refl eq_refl).
Defined.

(** C7 fails as stated: a [create] with an empty text succeeds. *)
Lemma create_empty_text_accepted :
  (create (Example.ticking 10) Example.empty_text_kwargs Example.empty_db).2 =
  inr ({| msg_id := 1; message_type := STORED; sender := Example.alice;
          senders_info := ""; root := None; parent := None;
          headline := ""; text := Some ""; html := Some "";
          sent_at := 10; last_active_at := 11; active_until := None |}, None).
Proof. vm_compute. reflexivity. Qed.

(** ** Binding and sequencing *)

Lemma bind_inr {A B} (c : M A) (k : A → M B) db db' b :
  (c ≫= k) db = (db', inr b) →
  ∃ db1 a, c db = (db1, inr a) ∧ k a db1 = (db', inr b).
Proof.
  unfold mbind, M_bind. destruct (c db) as [db1 [e|a]]; [done|].
  intros H. by exists db1, a.
Qed.

(** ** Many-to-many links *)

Lemma elem_of_m2m_add owner ids tbl p :
  p ∈ m2m_add owner ids tbl ↔ p ∈ tbl ∨ (p.1 = owner ∧ p.2 ∈ ids).
Proof.
  unfold m2m_add. revert tbl.
  induction ids as [|i ids IH]; intros tbl; simpl.
  - rewrite elem_of_nil. tauto.
  - rewrite IH, elem_of_cons. case_bool_decide as Hin.
    + split; [tauto|]. intros [?|[Ho [Hi|?]]]; [tauto| |tauto].
      left. destruct p; simpl in *. by subst.
    + rewrite elem_of_app, list_elem_of_singleton. split.
      * intros [[?| ->]|[? ?]]; simpl; tauto.
      * intros [?|[Ho [Hi|?]]]; [tauto| |tauto].
        left. right. destruct p; simpl in *. by subst.
Qed.

Lemma set_of_groups_ids_from s l g :
  g ∈ group_id <$>
    foldl (λ s g, if bool_decide (group_id g ∈ group_id <$> s) then s else s ++ [g]) s l ↔
  g ∈ group_id <$> s ∨ g ∈ group_id <$> l.
Proof.
  revert s. induction l as [|x l IH]; intros s; simpl.
  - rewrite elem_of_nil. tauto.
  - rewrite IH, elem_of_cons. case_bool_decide as Hin.
    + split; [tauto|]. intros [?|[-> |?]]; tauto.
    + rewrite fmap_app, elem_of_app. simpl. rewrite list_elem_of_singleton. tauto.
Qed.

Lemma set_of_groups_ids l g :
  g ∈ group_id <$> set_of_groups l ↔ g ∈ group_id <$> l.
Proof.
  unfold set_of_groups. rewrite set_of_groups_ids_from. simpl.
  rewrite elem_of_nil. tauto.
Qed.

Lemma set_add_ids x s g :
  g ∈ group_id <$> set_add x s ↔ g ∈ group_id <$> s ∨ g = group_id x.
Proof.
  unfold set_add. case_bool_decide as Hin.
  - split; [tauto|]. intros [?| ->]; done.
  - rewrite fmap_app, elem_of_app. simpl. by rewrite list_elem_of_singleton.
Qed.

(** ** Frames of the operations *)

Lemma same_store_refl db : same_store db db.
Proof. by repeat split. Qed.

Lemma same_store_trans db1 db2 db3 :
  same_store db1 db2 → same_store db2 db3 → same_store db1 db3.
Proof.
  intros (?&?&?&?&?&?&?) (?&?&?&?&?&?&?). repeat split; congruence.
Qed.

Lemma SenderList_get_or_create_frame g db :
  same_store db (SenderList_get_or_create g db).1.
Proof.
  unfold SenderList_get_or_create. run_M.
  destruct (filter _ (senderlist_tbl db)) as [|sl [|sl' l]]; simpl;
    by repeat split.
Qed.

Lemma record_send_frame self g db :
  same_store db
    ((sender_list ← SenderList_get_or_create g;
      modify_db (set_senderlist_senders
                   (m2m_add (senderlist_id sender_list) [user_id (sender self)]))) db).1.
Proof.
  pose proof (SenderList_get_or_create_frame g db) as Hf.
  unfold mbind, M_bind.
  destruct (SenderList_get_or_create g db) as [db1 [e|sl]]; simpl in *; [done|].
  eapply same_store_trans; [exact Hf|]. by repeat split.
Qed.

Lemma for_each_frame {A} (l : list A) (body : A → M unit) db :
  (∀ x db, same_store db (body x db).1) →
  same_store db (for_each l body db).1.
Proof.
  intros Hbody. revert db. induction l as [|x l IH]; intros db; simpl.
  - apply same_store_refl.
  - unfold mbind, M_bind. pose proof (Hbody x db) as Hx.
    destruct (body x db) as [db1 [e|[]]]; simpl in *; [done|].
    eapply same_store_trans; [exact Hx|]. apply IH.
Qed.

(** [add_recipients] adds the links of the message to the given groups and
    writes, besides, only the sender index. *)
Lemma add_recipients_frame self rs db db' res :
  add_recipients self rs db = (db', res) →
  auth_group db' = auth_group db ∧
  auth_user_groups db' = auth_user_groups db ∧
  message_tbl db' = message_tbl db ∧
  message_recipients db' =
    m2m_add (msg_id self) (group_id <$> rs) (message_recipients db) ∧
  messagememo_tbl db' = messagememo_tbl db ∧
  next_message_id db' = next_message_id db ∧
  next_memo_id db' = next_memo_id db.
Proof.
  unfold add_recipients. unfold mbind at 1. unfold M_bind at 1.
  unfold modify_db at 1.
  match goal with |- context [for_each rs ?body ?d] =>
    pose proof (for_each_frame rs body d (record_send_frame self)) as Hf;
    destruct (for_each rs body d) as [db2 res2]
  end.
  intros [= <- <-]. simpl in *. destruct Hf as (?&?&?&?&?&?&?). by repeat split.
Qed.

Lemma Group_objects_get_run name db :
  Group_objects_get name db =
  (db, match filter (λ g, group_name g = name) (auth_group db) with
       | [] => inl DoesNotExist
       | [g] => inr g
       | _ => inl MultipleObjectsReturned
       end).
Proof.
  unfold Group_objects_get. run_M.
  by destruct (filter _ (auth_group db)) as [|g [|g' l]].
Qed.

Lemma get_personal_group_inr u db db' g :
  get_personal_group u db = (db', inr g) →
  db' = db ∧ g ∈ auth_group db ∧
  group_name g = GROUP_NAME_TPL (Py.str_of_nat (user_id u)).
Proof.
  unfold get_personal_group, get_personal_group_by_user_id.
  rewrite Group_objects_get_run.
  destruct (filter _ (auth_group db)) as [|g0 [|g' l]] eqn:Hf; [done| |done].
  intros [= <- <-]. split; [done|].
  assert (g0 ∈ filter (λ g, group_name g = GROUP_NAME_TPL (Py.str_of_nat (user_id u)))
                      (auth_group db)) as Hin by (rewrite Hf; by left).
  apply list_elem_of_filter in Hin. tauto.
Qed.

(** ** Running [create_response] *)

(** The steps of a [create_response] that returns. *)
Lemma create_response_inr now s txt parent db db' message :
  create_response now s txt (Some parent) db = (db', inr message) →
  ∃ db1 db2 db3 db4 senders_group message_root message_root',
    create now
      {| kw_root := None; kw_parent := Some parent;
         kw_message_type := Some STORED; kw_sender := s;
         kw_senders_info := None; kw_headline := None;
         kw_text := Some txt; kw_html := None;
         kw_sent_at := None; kw_last_active_at := None;
         kw_active_until := None |} db
      = (db1, inr (message, Some message_root)) ∧
    get_personal_group (sender parent) db1 = (db1, inr senders_group) ∧
    add_recipients message
      (set_add senders_group (set_of_groups (recipients_all db1 parent))) db1
      = (db2, inr tt) ∧
    add_recipients parent [senders_group] db2 = (db3, inr tt) ∧
    update_senders_info (set_last_active_at (now 2) message_root) db3
      = (db4, inr message_root') ∧
    unarchive message_root' db4 = (db', inr tt).
Proof.
  intros H. unfold create_response in H.
  apply bind_inr in H as (db1 & [m r] & Hcreate & H).
  apply bind_inr in H as (db1' & dbv & Hget & H).
  injection Hget as <- <-.
  apply bind_inr in H as (db1' & sg & Hgroup & H).
  pose proof (get_personal_group_inr _ _ _ _ Hgroup) as (-> & _).
  apply bind_inr in H as (db2 & [] & Hadd1 & H).
  apply bind_inr in H as (db3 & [] & Hadd2 & H).
  destruct r as [root0|]; [|done].
  apply bind_inr in H as (db4 & root1 & Hupd & H).
  apply bind_inr in H as (db5 & [] & Hun & H).
  injection H as <- <-.
  by exists db1, db2, db3, db4, sg, root0, root1.
Qed.

Lemma update_senders_info_frame self db db' self' :
  update_senders_info self db = (db', inr self') →
  db' = set_message_tbl (insert (msg_id self) self') db ∧
  msg_id self' = msg_id self ∧ root self' = root self ∧
  parent self' = parent self ∧ sender self' = sender self.
Proof.
  unfold update_senders_info, save. run_M. by intros [= <- <-].
Qed.

(** C2, as the code has it. A [create_response] that returns has looked up
    the personal group of the sender of the parent message (not of the
    responding sender); the recipients of the new message are the recipients
    the parent had, with that group; and the recipients of the parent are
    those it had, with that group. *)
Theorem create_response_recipients (now : Clock) (s : option User)
    (txt : option string) (parent : Message) (db db' : DB) (message : Message) :
  integrity db →
  is_Some (message_tbl db !! msg_id parent) →
  create_response now s txt (Some parent) db = (db', inr message) →
  ∃ senders_group,
    get_personal_group (sender parent) db = (db, inr senders_group) ∧
    (∀ g, g ∈ recipient_ids db' message ↔
          g ∈ recipient_ids db parent ∨ g = group_id senders_group) ∧
    (∀ g, g ∈ recipient_ids db' parent ↔
          g ∈ recipient_ids db parent ∨ g = group_id senders_group).
Proof.
  intros Hint [p0 Hparent] Hrun.
  apply create_response_inr in Hrun
    as (db1 & db2 & db3 & db4 & sg & root0 & root1 &
        Hcreate & Hgroup & Hadd1 & Hadd2 & Hupd & Hun).
  (* the create *)
  revert Hcreate. rewrite create_run.
  destruct (create_root _ db).2 as [e|r]; [done|]. simpl.
  destruct txt as [t|]; [|done].
  destruct s as [s|]; [|done]. simpl.
  rewrite (integrity_fresh_memo db s Hint). intros Hcreate.
  injection Hcreate as <- <- ->.
  set (m := created_message _ _ _ _ _ _ _) in *.
  set (db1 := with_memo _ _) in *.
  assert (auth_group db1 = auth_group db) as Hg1 by done.
  assert (message_recipients db1 = message_recipients db) as Hl1 by done.
  assert (recipients_all db1 parent = recipients_all db parent) as Hr1
    by (unfold recipients_all; by rewrite Hg1, Hl1).
  (* the personal group *)
  pose proof (get_personal_group_inr _ _ _ _ Hgroup) as (_ & Hsg & _).
  assert (get_personal_group (sender parent) db = (db, inr sg)) as Hgroup0.
  { revert Hgroup. unfold get_personal_group, get_personal_group_by_user_id.
    rewrite !Group_objects_get_run, Hg1. by intros [= ->]. }
  (* the links *)
  apply add_recipients_frame in Hadd1 as (Hg2 & _ & _ & Hl2 & _).
  apply add_recipients_frame in Hadd2 as (Hg3 & _ & _ & Hl3 & _).
  apply update_senders_info_frame in Hupd as (-> & _).
  injection Hun as <-.
  assert (msg_id parent < next_message_id db) as Hlt.
  { destruct Hint as (Hkeys & _). apply Hkeys in Hparent. lia. }
  assert (∀ g, (next_message_id db, g) ∉ message_recipients db) as Hfresh.
  { intros g Hin. destruct Hint as (Hkeys & _ & Hfk).
    unfold recipients_fk in Hfk. rewrite Forall_forall in Hfk.
    destruct (Hfk _ Hin) as [x Hx]. apply Hkeys in Hx. simpl in Hx. lia. }
  assert (∀ i g, g ∈ recipient_ids
                   (set_messagememo_tbl (fmap (unarchive_memo root1))
                      (set_message_tbl (insert (msg_id (set_last_active_at (now 2) root0)) root1) db3))
                   i ↔
                 ∃ grp, grp ∈ auth_group db ∧ group_id grp = g ∧
                   ((msg_id i, g) ∈ message_recipients db ∨
                    (msg_id i = next_message_id db ∧
                     (g ∈ recipient_ids db parent ∨ g = group_id sg)) ∨
                    (msg_id i = msg_id parent ∧ g = group_id sg))) as Hids.
  { intros i g. unfold recipient_ids at 1, recipients_all. simpl.
    rewrite list_elem_of_fmap. rewrite Hg3, Hg2, Hg1, Hl3, Hl2, Hl1.
    split.
    - intros (grp & -> & Hin). apply list_elem_of_filter in Hin as [Hlink Hgrp].
      exists grp. split; [done|]. split; [done|].
      apply elem_of_m2m_add in Hlink as [Hlink|[Hi Hg]].
      + apply elem_of_m2m_add in Hlink as [Hlink|[Hi Hg]]; [tauto|].
        simpl in Hi, Hg. right. left. split; [done|].
        rewrite Hr1 in Hg.
        apply set_add_ids in Hg as [Hg|Hg]; [|tauto].
        rewrite set_of_groups_ids in Hg. by left.
      + simpl in Hi, Hg. apply list_elem_of_singleton in Hg. tauto.
    - intros (grp & Hgrp & <- & Hcase). exists grp. split; [done|].
      apply list_elem_of_filter. split; [|done].
      apply elem_of_m2m_add. simpl. destruct Hcase as [Hlink|[[Hi Hg]|[Hi Hg]]].
      + left. apply elem_of_m2m_add. tauto.
      + left. apply elem_of_m2m_add. right. simpl. split; [done|].
        rewrite Hr1. apply set_add_ids. rewrite set_of_groups_ids.
        unfold recipient_ids in Hg. tauto.
      + right. split; [done|]. rewrite Hg. by left. }
  assert (∀ g, g ∈ recipient_ids db parent ↔
               ∃ grp, grp ∈ auth_group db ∧ group_id grp = g ∧
                      (msg_id parent, g) ∈ message_recipients db) as Hold.
  { intros g. unfold recipient_ids, recipients_all. rewrite list_elem_of_fmap.
    split.
    - intros (grp & -> & Hin). apply list_elem_of_filter in Hin as [? ?].
      by exists grp.
    - intros (grp & Hgrp & <- & Hlink). exists grp. split; [done|].
      by apply list_elem_of_filter. }
  exists sg. split; [exact Hgroup0|]. split.
  - intros g. rewrite Hids. simpl. split.
    + intros (grp & Hgrp & <- & [Hlink|[[_ Hc]|[Hi _]]]).
      * by apply Hfresh in Hlink.
      * exact Hc.
      * lia.
    + intros Hc. destruct Hc as [Hc| ->].
      * pose proof Hc as Hc'. apply Hold in Hc' as (grp & Hgrp & <- & _).
        exists grp. split; [done|]. split; [done|]. right. left. tauto.
      * exists sg. split; [done|]. split; [done|]. right. left. tauto.
  - intros g. rewrite Hids, Hold. split.
    + intros (grp & Hgrp & <- & [Hlink|[[Hi _]|[_ Hc]]]).
      * left. by exists grp.
      * lia.
      * by right.
    + intros [(grp & Hgrp & <- & Hlink)| ->].
      * exists grp. tauto.
      * exists sg. split; [done|]. split; [done|]. right. right. done.
Qed.

Lemma create_response_recipients_witness :
  integrity Example.thread_db ∧
  ∃ senders_group,
    get_personal_group Example.alice Example.thread_db
      = (Example.thread_db, inr senders_group) ∧
    (∀ g, g ∈ recipient_ids Example.reply_db Example.reply ↔
          g ∈ recipient_ids Example.thread_db Example.thread_root ∨
          g = group_id senders_group) ∧
    (∀ g, g ∈ recipient_ids Example.reply_db Example.thread_root ↔
          g ∈ recipient_ids Example.thread_db Example.thread_root ∨
          g = group_id senders_group).
Proof.
  assert (integrity Example.thread_db) as Hint
    by (apply (bool_decide_unpack _); vm_compute; exact I).
  split; [exact Hint|].
  apply (create_response_recipients (Example.ticking 20) (Some Example.bob) (Some "Hi")
           Example.thread_root Example.thread_db Example.reply_db Example.reply Hint).
  - exists Example.thread_root. vm_compute. reflexivity.
  - vm_compute. reflexivity.
Defined.

(** C2 fails as stated: Bob answers Alice's thread, which was sent to the
    staff group (id 3).  The answer is addressed to the staff group and to
    Alice's personal group (id 1), and so is the thread root afterwards; Bob's
    own personal group (id 2) is a recipient of neither. *)
Lemma response_recipients_not_responder :
  create_response (Example.ticking 20) (Some Example.bob) (Some "Hi") (Some Example.thread_root)
    Example.thread_db = (Example.reply_db, inr Example.reply) ∧
  get_personal_group Example.bob Example.thread_db
    = (Example.thread_db, inr Example.bob_group) ∧
  recipient_ids Example.thread_db Example.thread_root = [3] ∧
  recipient_ids Example.reply_db Example.reply = [1; 3] ∧
  recipient_ids Example.reply_db Example.thread_root = [1; 3].
Proof.
  split; [vm_compute; reflexivity|]. split; [vm_compute; reflexivity|].
  split; [vm_compute; reflexivity|]. split; vm_compute; reflexivity.
Qed.

(** C3 (the code departs from the claim). After Bob's answer to Alice's
    thread, whose [senders_info] was "A", the root's [senders_info] is still
    "A" and does not start with "B,A": [update_senders_info] runs on the root
    and takes the name of the root's own sender, not of the responder. *)
Theorem response_senders_info :
  create_response (Example.ticking 20) (Some Example.bob) (Some "Hi") (Some Example.thread_root)
    Example.thread_db = (Example.reply_db, inr Example.reply) ∧
  senders_info Example.thread_root = "A" ∧
  message_tbl Example.reply_db !! 1 = Some Example.thread_root' ∧
  senders_info Example.thread_root' = "A".
Proof.
  split; [vm_compute; reflexivity|]. split; [reflexivity|].
  split; vm_compute; reflexivity.
Qed.

(** Whoever answers, the name [create_response] puts in front of the root's
    [senders_info] is the name of the sender of the root instance. *)
Lemma create_response_senders_info now s txt parent db db' message :
  create_response now s txt (Some parent) db = (db', inr message) →
  ∃ db1 message_root message_root',
    create now
      {| kw_root := None; kw_parent := Some parent;
         kw_message_type := Some STORED; kw_sender := s;
         kw_senders_info := None; kw_headline := None;
         kw_text := Some txt; kw_html := None;
         kw_sent_at := None; kw_last_active_at := None;
         kw_active_until := None |} db
      = (db1, inr (message, Some message_root)) ∧
    message_tbl db' !! msg_id message_root = Some message_root' ∧
    senders_info message_root' =
      Py.slice_to 64 (Py.join_comma
        (username (sender message_root) ::
         (if Py.contains (username (sender message_root))
               (Py.split_comma (senders_info message_root))
          then Py.remove (username (sender message_root))
                 (Py.split_comma (senders_info message_root))
          else Py.split_comma (senders_info message_root)))).
Proof.
  intros Hrun.
  apply create_response_inr in Hrun
    as (db1 & db2 & db3 & db4 & sg & root0 & root1 &
        Hcreate & _ & _ & _ & Hupd & Hun).
  exists db1, root0, root1. split; [exact Hcreate|].
  rewrite unarchive_run in Hun. injection Hun as <-.
  revert Hupd. unfold update_senders_info, save. run_M.
  intros [= <- <-]. simpl. split; [apply lookup_insert_eq|done].
Qed.

(** ** The root invariant *)

Lemma topmost_ancestor_unique tbl i r1 r2 :
  topmost_ancestor tbl i r1 → topmost_ancestor tbl i r2 → r1 = r2.
Proof.
  intros H1. revert r2.
  induction H1 as [i m Hm Hp|i m p r Hm Hp _ IH]; intros r2 H2.
  - inversion H2; simplify_eq; done.
  - inversion H2; simplify_eq. by apply IH.
Qed.

Lemma topmost_ancestor_insert_fresh tbl n m i r :
  tbl !! n = None →
  topmost_ancestor tbl i r → topmost_ancestor (<[n:=m]> tbl) i r.
Proof.
  intros Hn H. induction H as [i mi Hm Hp|i mi p r Hm Hp _ IH].
  - eapply top_self; [|exact Hp]. rewrite lookup_insert_ne; [done|congruence].
  - eapply top_step; [|exact Hp|exact IH].
    rewrite lookup_insert_ne; [done|congruence].
Qed.

Lemma topmost_ancestor_update tbl k old new i r :
  tbl !! k = Some old → parent new = parent old →
  topmost_ancestor tbl i r → topmost_ancestor (<[k:=new]> tbl) i r.
Proof.
  intros Hk Hpar H. induction H as [i mi Hm Hp|i mi p r Hm Hp _ IH].
  - destruct (decide (k = i)) as [->|Hne].
    + eapply top_self; [apply lookup_insert_eq|]. congruence.
    + eapply top_self; [|exact Hp]. by rewrite lookup_insert_ne.
  - destruct (decide (k = i)) as [->|Hne].
    + eapply top_step; [apply lookup_insert_eq| |exact IH]. congruence.
    + eapply top_step; [|exact Hp|exact IH]. by rewrite lookup_insert_ne.
Qed.

Lemma root_inv_same_thread db i j mi mj rt :
  root_inv db →
  message_tbl db !! i = Some mi → message_tbl db !! j = Some mj →
  root mi = Some rt → root mj = Some rt →
  same_thread (message_tbl db) i j.
Proof.
  intros Hinv Hi Hj Hri Hrj.
  apply Hinv in Hi. apply Hinv in Hj. unfold root_ok in *.
  rewrite Hri in Hi. rewrite Hrj in Hj. exists rt. tauto.
Qed.

Lemma with_message_integrity db m :
  integrity db → msg_id m = next_message_id db → integrity (with_message m db).
Proof.
  intros (Hkeys & Hmemo & Hlinks) Hid. split; [|split].
  - unfold keys_ok. simpl. apply map_Forall_insert_2.
    + rewrite Hid. lia.
    + intros i x Hx. apply Hkeys in Hx. simpl. lia.
  - unfold memo_fk in *. simpl. eapply Forall_impl; [exact Hmemo|].
    intros memo [x Hx]. simpl.
    destruct (decide (msg_id m = message memo)) as [->|Hne].
    + rewrite lookup_insert_eq. by eexists.
    + rewrite lookup_insert_ne; [by eexists|done].
  - unfold recipients_fk in *. simpl. eapply Forall_impl; [exact Hlinks|].
    intros link [x Hx]. simpl.
    destruct (decide (msg_id m = link.1)) as [->|Hne].
    + rewrite lookup_insert_eq. by eexists.
    + rewrite lookup_insert_ne; [by eexists|done].
Qed.

Lemma with_memo_integrity db memo :
  integrity db → is_Some (message_tbl db !! message memo) →
  integrity (with_memo memo db).
Proof.
  intros (Hkeys & Hmemo & Hlinks) Hfk. split; [|split].
  - exact Hkeys.
  - unfold memo_fk in *. simpl. apply Forall_app. split; [exact Hmemo|].
    by apply Forall_singleton.
  - exact Hlinks.
Qed.

Lemma root_ok_insert_fresh tbl n m i mi :
  tbl !! n = None → root_ok tbl i mi → root_ok (<[n:=m]> tbl) i mi.
Proof.
  intros Hn. unfold root_ok. destruct (root mi); [|done].
  intros [Hne Htop]. split; [done|]. by apply topmost_ancestor_insert_fresh.
Qed.

(** The root [create] chooses, read off the keyword arguments. *)
Lemma create_root_inr kw db r :
  integrity db →
  (create_root kw db).2 = inr r →
  msg_id <$> r =
    match kw_root kw with
    | Some x => Some (msg_id x)
    | None =>
        match kw_parent kw with
        | Some p => match root p with
                    | Some pr => Some pr
                    | None => Some (msg_id p)
                    end
        | None => None
        end
    end ∧
  (kw_root kw = None → ∀ r0, r = Some r0 →
     kw_parent kw = Some r0 ∨ message_tbl db !! msg_id r0 = Some r0).
Proof.
  intros (Hkeys & _). unfold create_root, Message_root.
  destruct (kw_root kw) as [x|]; [by intros [= <-]|].
  destruct (kw_parent kw) as [p|]; [|by intros [= <-]].
  destruct (root p) as [pr|] eqn:Hpr;
    [|intros [= <-]; split; [done|intros _ r0 [= <-]; by left]].
  run_M. destruct (message_tbl db !! pr) as [row|] eqn:Hrow; [|done].
  simpl. intros [= <-]. simpl. pose proof (Hkeys _ _ Hrow) as [Hid _].
  simpl in Hid. split; [by rewrite Hid|].
  intros _ r0 [= <-]. right. by rewrite Hid.
Qed.

Lemma instance_of_stored tbl row :
  tbl !! msg_id row = Some row → instance_of tbl row.
Proof. intros H. by exists row. Qed.

Lemma instance_of_insert_fresh tbl n m p :
  tbl !! n = None → instance_of tbl p → instance_of (<[n:=m]> tbl) p.
Proof.
  intros Hn (row & Hrow & Hr & Hp). exists row. split; [|done].
  rewrite lookup_insert_ne; [done|congruence].
Qed.

(** A [create] that returns, called without an explicit root on a loaded
    parent, keeps the integrity of the keys and the root invariant. *)
Lemma create_keeps_invariant now kw db db' m r :
  integrity db → root_inv db →
  kw_root kw = None →
  (∀ p, kw_parent kw = Some p → instance_of (message_tbl db) p) →
  create now kw db = (db', inr (m, r)) →
  integrity db' ∧ root_inv db' ∧
  msg_id m = next_message_id db ∧
  message_tbl db' = <[next_message_id db:=m]> (message_tbl db) ∧
  (∀ r0, r = Some r0 → instance_of (message_tbl db) r0).
Proof.
  intros Hint Hinv Hnoroot Hparent. rewrite create_run.
  destruct (create_root kw db).2 as [e|r0] eqn:Hroot; [done|].
  destruct (kw_text kw) as [txt|]; [|done].
  destruct (match kw_headline kw with Some h => Some h | None => txt end) as [h|];
    [|done].
  destruct (kw_sender kw) as [s|]; [|done]. simpl.
  rewrite (integrity_fresh_memo db s Hint). intros [= <- <- <-].
  destruct (create_root_inr kw db r0 Hint Hroot) as [Hrule Hfetched].
  pose proof (integrity_fresh_key db Hint) as Hfresh.
  set (m := created_message _ _ _ _ _ _ _).
  assert (∀ r1, r0 = Some r1 → instance_of (message_tbl db) r1) as Hr0.
  { intros r1 Hr1. destruct (Hfetched Hnoroot r1 Hr1) as [Hp|Hrow].
    - by apply Hparent.
    - by apply instance_of_stored. }
  split; [|split; [|done]].
  - apply with_memo_integrity; [by apply with_message_integrity|].
    simpl. rewrite lookup_insert_eq. by eexists.
  - unfold root_inv. simpl. apply map_Forall_insert_2.
    + assert (parent m = msg_id <$> kw_parent kw) as Hpm by reflexivity.
      unfold root_ok. change (root m) with (msg_id <$> r0).
      rewrite Hnoroot in Hrule. rewrite Hpm, Hrule.
      destruct (kw_parent kw) as [p|] eqn:Hkp; [|done].
      destruct (Hparent p eq_refl) as (row & Hrow & Hrr & Hrp).
      assert (msg_id p ≠ next_message_id db) as Hne by congruence.
      pose proof (Hinv _ _ Hrow) as Hpok. unfold root_ok in Hpok.
      rewrite Hrr in Hpok. destruct (root p) as [pr|] eqn:Hpr.
      * destruct Hpok as [_ Htop]. split.
        -- destruct r0 as [r1|]; [|done]. injection Hrule as Hid.
           destruct (Hr0 r1 eq_refl) as (row1 & Hrow1 & _). congruence.
        -- eapply top_step; [apply lookup_insert_eq|exact Hpm|].
           by apply topmost_ancestor_insert_fresh.
      * split; [done|].
        eapply top_step; [apply lookup_insert_eq|exact Hpm|].
        eapply top_self; [|exact Hpok]. by rewrite lookup_insert_ne.
    + intros i mi Hi. apply root_ok_insert_fresh; [done|]. by apply Hinv.
Qed.

(** C4, as the code has it. [create] uses an explicit root when one is
    given; otherwise the root of the parent, or the parent itself when that
    has none; and no root without a parent.  When no explicit root is given
    and the parent is a loaded message, the root invariant is kept: every
    stored message has no root and no parent, or its root is its topmost
    ancestor, which is unique; and two messages with the same root are in the
    same thread. *)
Theorem create_root_invariant (now : Clock) (kw : kwargs) (db db' : DB)
    (m : Message) (r : option Message) :
  integrity db →
  root_inv db →
  (∀ p, kw_parent kw = Some p → instance_of (message_tbl db) p) →
  create now kw db = (db', inr (m, r)) →
  message_tbl db' !! msg_id m = Some m ∧
  root m =
    match kw_root kw with
    | Some x => Some (msg_id x)
    | None =>
        match kw_parent kw with
        | Some p => match root p with
                    | Some pr => Some pr
                    | None => Some (msg_id p)
                    end
        | None => None
        end
    end ∧
  (kw_root kw = None →
     integrity db' ∧ root_inv db' ∧
     (∀ i mi, message_tbl db' !! i = Some mi →
        (root mi = None ∧ parent mi = None) ∨
        (∃ rt, root mi = Some rt ∧ rt ≠ i ∧
               topmost_ancestor (message_tbl db') i rt ∧
               ∀ rt', topmost_ancestor (message_tbl db') i rt' → rt' = rt)) ∧
     (∀ i j mi mj rt,
        message_tbl db' !! i = Some mi → message_tbl db' !! j = Some mj →
        root mi = Some rt → root mj = Some rt →
        same_thread (message_tbl db') i j)).
Proof.
  intros Hint Hinv Hparent Hrun. split; [|split].
  - revert Hrun. rewrite create_run.
    destruct (create_root kw db).2 as [e|r0]; [done|].
    destruct (kw_text kw) as [txt|]; [|done].
    destruct (match kw_headline kw with Some h => Some h | None => txt end)
      as [h|]; [|done].
    destruct (kw_sender kw) as [s|]; [|done]. simpl.
    rewrite (integrity_fresh_memo db s Hint). intros [= <- <- <-].
    apply lookup_insert_eq.
  - revert Hrun. rewrite create_run.
    destruct (create_root kw db).2 as [e|r0] eqn:Hroot; [done|].
    destruct (kw_text kw) as [txt|]; [|done].
    destruct (match kw_headline kw with Some h => Some h | None => txt end)
      as [h|]; [|done].
    destruct (kw_sender kw) as [s|]; [|done]. simpl.
    rewrite (integrity_fresh_memo db s Hint). intros [= <- <- <-].
    apply (create_root_inr kw db r0 Hint Hroot).
  - intros Hnoroot.
    destruct (create_keeps_invariant now kw db db' m r Hint Hinv Hnoroot Hparent Hrun)
      as (Hint' & Hinv' & _).
    split; [exact Hint'|]. split; [exact Hinv'|]. split.
    + intros i mi Hi. apply Hinv' in Hi. unfold root_ok in Hi.
      destruct (root mi) as [rt|]; [right|by left].
      destruct Hi as [Hne Htop]. exists rt. repeat split; try done.
      intros rt' Htop'. by eapply topmost_ancestor_unique.
    + intros i j mi mj rt. by apply root_inv_same_thread.
Qed.

Lemma thread_db_root_inv : root_inv Example.thread_db.
Proof.
  unfold root_inv.
  assert (message_tbl Example.thread_db = <[1:=Example.thread_root]> ∅) as ->
    by (vm_compute; reflexivity).
  apply map_Forall_insert_2; [reflexivity|]. apply map_Forall_empty.
Defined.

Lemma create_root_invariant_witness :
  integrity Example.thread_db ∧
  root_inv Example.thread_db ∧
  message_tbl Example.replied_db !! 2 = Some Example.reply ∧
  root Example.reply = Some 1 ∧
  (kw_root Example.reply_kwargs = None →
     integrity Example.replied_db ∧ root_inv Example.replied_db ∧
     (∀ i mi, message_tbl Example.replied_db !! i = Some mi →
        (root mi = None ∧ parent mi = None) ∨
        (∃ rt, root mi = Some rt ∧ rt ≠ i ∧
               topmost_ancestor (message_tbl Example.replied_db) i rt ∧
               ∀ rt', topmost_ancestor (message_tbl Example.replied_db) i rt' →
                      rt' = rt)) ∧
     (∀ i j mi mj rt,
        message_tbl Example.replied_db !! i = Some mi →
        message_tbl Example.replied_db !! j = Some mj →
        root mi = Some rt → root mj = Some rt →
        same_thread (message_tbl Example.replied_db) i j)).
Proof.
  assert (integrity Example.thread_db) as Hint
    by (apply (bool_decide_unpack _); vm_compute; exact I).
  split; [exact Hint|]. split; [exact thread_db_root_inv|].
  apply (create_root_invariant (Example.ticking 20) Example.reply_kwargs Example.thread_db
           Example.replied_db Example.reply (Some Example.thread_root)
           Hint thread_db_root_inv).
  - intros p [= <-]. apply instance_of_stored. vm_compute. reflexivity.
  - vm_compute. reflexivity.
Defined.

(** C4 fails as stated: a message created with an explicit root and no
    parent has that root, which is not its topmost ancestor (the message is
    its own). *)
Lemma explicit_root_not_ancestor :
  create (Example.ticking 20) Example.explicit_root_kwargs Example.thread_db
    = (Example.stray_db, inr (Example.stray, Some Example.thread_root)) ∧
  message_tbl Example.stray_db !! 2 = Some Example.stray ∧
  root Example.stray = Some 1 ∧
  topmost_ancestor (message_tbl Example.stray_db) 2 2 ∧
  ¬ topmost_ancestor (message_tbl Example.stray_db) 2 1.
Proof.
  assert (message_tbl Example.stray_db !! 2 = Some Example.stray) as Hstray
    by (vm_compute; reflexivity).
  assert (topmost_ancestor (message_tbl Example.stray_db) 2 2) as Htop
    by (eapply top_self; [exact Hstray|reflexivity]).
  split; [vm_compute; reflexivity|]. split; [exact Hstray|].
  split; [reflexivity|]. split; [exact Htop|].
  intros Hone. by pose proof (topmost_ancestor_unique _ _ _ _ Htop Hone).
Qed.

(** ** The invariants along a conversation *)

Lemma bind_cases {A B} (c : M A) (k : A → M B) db db' res :
  (c ≫= k) db = (db', res) →
  (∃ e, c db = (db', inl e) ∧ res = inl e) ∨
  (∃ db1 a, c db = (db1, inr a) ∧ k a db1 = (db', res)).
Proof.
  unfold mbind, M_bind. destruct (c db) as [db1 [e|a]].
  - intros [= <- <-]. left. by exists e.
  - intros H. right. by exists db1, a.
Qed.

Lemma create_failure_unchanged now kw db db' e :
  integrity db → create now kw db = (db', inl e) → db' = db.
Proof.
  intros Hint. rewrite create_run.
  destruct (create_root kw db).2 as [e0|r0]; [by intros [= <- _]|].
  destruct (kw_text kw) as [txt|]; [|by intros [= <- _]].
  destruct (match kw_headline kw with Some h => Some h | None => txt end) as [h|];
    [|by intros [= <- _]].
  destruct (kw_sender kw) as [s|]; [|by intros [= <- _]]. simpl.
  by rewrite (integrity_fresh_memo db s Hint).
Qed.

Lemma root_inv_same_tbl db db' :
  message_tbl db' = message_tbl db → root_inv db → root_inv db'.
Proof. unfold root_inv. by intros ->. Qed.

Lemma add_recipients_keeps self rs db db' res :
  integrity db → is_Some (message_tbl db !! msg_id self) →
  add_recipients self rs db = (db', res) →
  integrity db' ∧ message_tbl db' = message_tbl db.
Proof.
  intros (Hkeys & Hmemo & Hlinks) Hself Hrun.
  apply add_recipients_frame in Hrun as (_ & _ & Ht & Hl & Hm & Hn & _).
  split; [|done]. split; [|split].
  - unfold keys_ok. by rewrite Ht, Hn.
  - unfold memo_fk. by rewrite Ht, Hm.
  - unfold recipients_fk in *. rewrite Ht, Hl. rewrite Forall_forall in *.
    intros link Hin. apply elem_of_m2m_add in Hin as [Hin|[-> _]]; [|done].
    by apply Hlinks.
Qed.

Lemma get_personal_group_db u db : (get_personal_group u db).1 = db.
Proof.
  unfold get_personal_group, get_personal_group_by_user_id.
  by rewrite Group_objects_get_run.
Qed.

Lemma root_ok_update tbl k old new i mi :
  tbl !! k = Some old → parent new = parent old →
  root_ok tbl i mi → root_ok (<[k:=new]> tbl) i mi.
Proof.
  intros Hk Hp. unfold root_ok. destruct (root mi); [|done].
  intros [Hne Htop]. split; [done|]. by eapply topmost_ancestor_update.
Qed.

(** Saving a loaded instance, whatever its other fields, keeps the keys. *)
Lemma update_senders_info_keeps self db db' self' :
  integrity db → root_inv db →
  instance_of (message_tbl db) self →
  update_senders_info self db = (db', inr self') →
  integrity db' ∧ root_inv db'.
Proof.
  intros (Hkeys & Hmemo & Hlinks) Hinv (row & Hrow & Hrr & Hrp) Hrun.
  apply update_senders_info_frame in Hrun as (-> & Hid & Hr & Hp & _).
  split; [split; [|split]|].
  - unfold keys_ok. simpl. apply map_Forall_insert_2; [|exact Hkeys].
    apply Hkeys in Hrow. simpl in Hrow. split; [done|lia].
  - unfold memo_fk in *. simpl. eapply Forall_impl; [exact Hmemo|].
    intros memo [x Hx]. simpl.
    destruct (decide (msg_id self = message memo)) as [->|Hne].
    + rewrite lookup_insert_eq. by eexists.
    + rewrite lookup_insert_ne; [by eexists|done].
  - unfold recipients_fk in *. simpl. eapply Forall_impl; [exact Hlinks|].
    intros link [x Hx]. simpl.
    destruct (decide (msg_id self = link.1)) as [->|Hne].
    + rewrite lookup_insert_eq. by eexists.
    + rewrite lookup_insert_ne; [by eexists|done].
  - assert (parent self' = parent row) as Hp' by congruence.
    unfold root_inv. simpl. apply map_Forall_insert_2.
    + pose proof (Hinv _ _ Hrow) as Hok.
      apply (root_ok_update _ _ _ self' _ _ Hrow Hp') in Hok.
      unfold root_ok in *. rewrite Hr, <- Hrr.
      destruct (root row); [done|]. congruence.
    + intros i mi Hi. eapply root_ok_update; [exact Hrow|exact Hp'|].
      by apply Hinv.
Qed.

Lemma unarchive_keeps self db :
  integrity db → integrity (set_messagememo_tbl (fmap (unarchive_memo self)) db).
Proof.
  intros (Hkeys & Hmemo & Hlinks). split; [done|]. split; [|done].
  unfold memo_fk in *. simpl. apply Forall_fmap.
  eapply Forall_impl; [exact Hmemo|]. intros memo Hx. simpl.
  by destruct (unarchive_memo_keys self memo) as (_ & _ & ->).
Qed.

Lemma create_thread_keeps now s rs txt db db' res :
  integrity db → root_inv db →
  create_thread now s rs txt db = (db', res) →
  integrity db' ∧ root_inv db'.
Proof.
  intros Hint Hinv. unfold create_thread.
  destruct s as [s|]; [|by intros [= <- _]].
  intros H. apply bind_cases in H as [(e & Hc & _)|(db1 & [m r] & Hc & H)].
  - by rewrite (create_failure_unchanged _ _ _ _ _ Hint Hc).
  - apply create_keeps_invariant in Hc as (Hint1 & Hinv1 & Hid & Htbl & _);
      [|done|done|done|done].
    destruct rs as [rs|]; [|by injection H as <- _].
    apply bind_cases in H as [(e & Ha & _)|(db2 & [] & Ha & H)].
    + apply add_recipients_keeps in Ha as [Hint2 Ht]; [|done|].
      * split; [done|]. by apply (root_inv_same_tbl db1).
      * rewrite Htbl, Hid, lookup_insert_eq. by eexists.
    + injection H as <- _.
      apply add_recipients_keeps in Ha as [Hint2 Ht]; [|done|].
      * split; [done|]. by apply (root_inv_same_tbl db1).
      * rewrite Htbl, Hid, lookup_insert_eq. by eexists.
Qed.

Lemma create_response_keeps now s txt p db db' res :
  integrity db → root_inv db →
  (∀ p', p = Some p' → instance_of (message_tbl db) p') →
  create_response now s txt p db = (db', res) →
  integrity db' ∧ root_inv db'.
Proof.
  intros Hint Hinv Hp. unfold create_response.
  intros H. apply bind_cases in H as [(e & Hc & _)|(db1 & [m r] & Hc & H)].
  { by rewrite (create_failure_unchanged _ _ _ _ _ Hint Hc). }
  pose proof (integrity_fresh_key db Hint) as Hfresh.
  apply create_keeps_invariant in Hc as (Hint1 & Hinv1 & Hid & Htbl & Hr);
    [|done|done|done|done].
  destruct p as [parent|]; [|by injection H as <- _].
  assert (is_Some (message_tbl db1 !! msg_id m)) as Hm
    by (rewrite Htbl, Hid, lookup_insert_eq; by eexists).
  assert (is_Some (message_tbl db1 !! msg_id parent)) as Hparent.
  { destruct (Hp parent eq_refl) as (row & Hrow & _). rewrite Htbl.
    rewrite lookup_insert_ne; [by eexists|congruence]. }
  apply bind_cases in H as [(e & Hg & _)|(db1' & dbv & Hg & H)]; [done|].
  injection Hg as <- <-.
  apply bind_cases in H as [(e & Hg & _)|(db1' & sg & Hg & H)].
  { pose proof (get_personal_group_db (parent_sender parent) db1) as Hdb.
    rewrite Hg in Hdb. simpl in Hdb. by subst. }
  pose proof (get_personal_group_db (parent_sender parent) db1) as Hdb.
  rewrite Hg in Hdb. simpl in Hdb. subst db1'.
  apply bind_cases in H as [(e & Ha & _)|(db2 & [] & Ha & H)].
  { apply add_recipients_keeps in Ha as [Hint2 Ht]; [|done|done].
    split; [done|]. by apply (root_inv_same_tbl db1). }
  apply add_recipients_keeps in Ha as [Hint2 Ht2]; [|done|done].
  pose proof (root_inv_same_tbl db1 db2 Ht2 Hinv1) as Hinv2.
  apply bind_cases in H as [(e & Ha & _)|(db3 & [] & Ha & H)].
  { apply add_recipients_keeps in Ha as [Hint3 Ht]; [|done|by rewrite Ht2].
    split; [done|]. by apply (root_inv_same_tbl db2). }
  apply add_recipients_keeps in Ha as [Hint3 Ht3]; [|done|by rewrite Ht2].
  pose proof (root_inv_same_tbl db2 db3 Ht3 Hinv2) as Hinv3.
  destruct r as [root0|]; [|by injection H as <- _].
  assert (instance_of (message_tbl db3) (set_last_active_at (now 2) root0)) as Hroot0.
  { rewrite Ht3, Ht2, Htbl. apply instance_of_insert_fresh; [done|].
    destruct (Hr root0 eq_refl) as (row & Hrow & Hrr & Hrp). by exists row. }
  apply bind_cases in H as [(e & Hu & _)|(db4 & root1 & Hu & H)].
  { destruct (update_senders_info_run (set_last_active_at (now 2) root0) db3)
      as (dbx & rx & Hx & _). congruence. }
  apply update_senders_info_keeps in Hu as [Hint4 Hinv4]; [|done|done|done].
  apply bind_cases in H as [(e & Hu & _)|(db5 & [] & Hu & H)].
  { rewrite unarchive_run in Hu. done. }
  rewrite unarchive_run in Hu. injection Hu as <-. injection H as <- _.
  split; [by apply unarchive_keeps|]. by apply (root_inv_same_tbl db4).
Qed.

(** In every state of a conversation the keys are intact and every
    message's root is null or its topmost ancestor. *)
Lemma conversation_invariant db :
  conversation db → integrity db ∧ root_inv db.
Proof.
  induction 1 as [db Ht Hl Hm|db now s rs txt _ [Hint Hinv]
                 |db now s txt p _ [Hint Hinv] Hp].
  - split; [split; [|split]|].
    + unfold keys_ok. rewrite Ht. apply map_Forall_empty.
    + unfold memo_fk. rewrite Hm. apply Forall_nil_2.
    + unfold recipients_fk. rewrite Hl. apply Forall_nil_2.
    + unfold root_inv. rewrite Ht. apply map_Forall_empty.
  - eapply create_thread_keeps; [exact Hint|exact Hinv|].
    apply surjective_pairing.
  - eapply create_response_keeps; [exact Hint|exact Hinv|exact Hp|].
    apply surjective_pairing.
Qed.

(** * Further properties of the module *)

(** ** Personal groups *)

Lemma str_of_nat_inj n m : Py.str_of_nat n = Py.str_of_nat m → n = m.
Proof.
  unfold Py.str_of_nat. intros H. apply DecimalNat.Unsigned.to_uint_inj.
  pose proof (NilEmpty.usu (Nat.to_uint n)) as Hn.
  pose proof (NilEmpty.usu (Nat.to_uint m)) as Hm.
  rewrite H in Hn. congruence.
Qed.

Lemma GROUP_NAME_TPL_inj a b : GROUP_NAME_TPL a = GROUP_NAME_TPL b → a = b.
Proof. unfold GROUP_NAME_TPL. cbv [String.append]. by intros [= ->]. Qed.

Lemma personal_name_inj u1 u2 :
  GROUP_NAME_TPL (Py.str_of_nat (user_id u1)) =
  GROUP_NAME_TPL (Py.str_of_nat (user_id u2)) →
  user_id u1 = user_id u2.
Proof. intros H. by apply str_of_nat_inj, GROUP_NAME_TPL_inj. Qed.

Lemma get_personal_group_run u db :
  get_personal_group u db =
  (db, match filter (λ g, group_name g = GROUP_NAME_TPL (Py.str_of_nat (user_id u)))
                    (auth_group db) with
       | [] => inl DoesNotExist
       | [g] => inr g
       | _ => inl MultipleObjectsReturned
       end).
Proof.
  unfold get_personal_group, get_personal_group_by_user_id.
  apply Group_objects_get_run.
Qed.

(** X1. [get_personal_group] only reads.  Two users whose personal groups
    are found get the same group exactly when they have the same id: no two
    users share a personal group. *)
Theorem personal_groups_distinct (u1 u2 : User) (db db1 db2 : DB) (g1 g2 : Group) :
  get_personal_group u1 db = (db1, inr g1) →
  get_personal_group u2 db = (db2, inr g2) →
  db1 = db ∧ db2 = db ∧ (g1 = g2 ↔ user_id u1 = user_id u2).
Proof.
  intros H1 H2.
  pose proof (get_personal_group_inr _ _ _ _ H1) as (-> & _ & Hn1).
  pose proof (get_personal_group_inr _ _ _ _ H2) as (-> & _ & Hn2).
  split; [done|]. split; [done|]. split.
  - intros <-. apply personal_name_inj. congruence.
  - intros Hid. revert H1 H2. rewrite !get_personal_group_run, Hid. congruence.
Qed.

Lemma personal_groups_distinct_witness :
  get_personal_group Example.alice Example.thread_db
    = (Example.thread_db, inr Example.alice_group) ∧
  get_personal_group Example.bob Example.thread_db
    = (Example.thread_db, inr Example.bob_group) ∧
  Example.thread_db = Example.thread_db ∧ Example.thread_db = Example.thread_db ∧
  (Example.alice_group = Example.bob_group ↔
   user_id Example.alice = user_id Example.bob).
Proof.
  assert (get_personal_group Example.alice Example.thread_db
            = (Example.thread_db, inr Example.alice_group)) as Ha
    by (vm_compute; reflexivity).
  assert (get_personal_group Example.bob Example.thread_db
            = (Example.thread_db, inr Example.bob_group)) as Hb
    by (vm_compute; reflexivity).
  split; [exact Ha|]. split; [exact Hb|].
  exact (personal_groups_distinct Example.alice Example.bob Example.thread_db
           Example.thread_db Example.thread_db Example.alice_group Example.bob_group
           Ha Hb).
Defined.

(** X2. [get_personal_groups_for_users] returns the stored groups named
    after one of the users; it contains every group [get_personal_group]
    finds for a user of the list, skips the users who have none without
    raising, and is empty for an empty list. *)
Theorem get_personal_groups_for_users_covers (users : list User) (db : DB) :
  (∀ g, g ∈ get_personal_groups_for_users users db ↔
        g ∈ auth_group db ∧
        ∃ u, u ∈ users ∧ group_name g = GROUP_NAME_TPL (Py.str_of_nat (user_id u))) ∧
  (∀ u db' g, u ∈ users → get_personal_group u db = (db', inr g) →
              g ∈ get_personal_groups_for_users users db) ∧
  (∀ u g, u ∈ users → (get_personal_group u db).2 = inl DoesNotExist →
          g ∈ get_personal_groups_for_users users db →
          group_name g ≠ GROUP_NAME_TPL (Py.str_of_nat (user_id u))) ∧
  get_personal_groups_for_users [] db = [].
Proof.
  assert (∀ g, g ∈ get_personal_groups_for_users users db ↔
        g ∈ auth_group db ∧
        ∃ u, u ∈ users ∧ group_name g = GROUP_NAME_TPL (Py.str_of_nat (user_id u)))
    as Hchar.
  { intros g. unfold get_personal_groups_for_users.
    rewrite list_elem_of_filter, list_elem_of_fmap. split.
    - intros [(u & Hn & Hu) Hg]. split; [done|]. by exists u.
    - intros [Hg (u & Hu & Hn)]. split; [|done]. by exists u. }
  split; [exact Hchar|]. split; [|split].
  - intros u db' g Hu Hget. apply Hchar.
    apply get_personal_group_inr in Hget as (_ & Hg & Hn). split; [done|].
    by exists u.
  - intros u g Hu Hnone Hg Hname. apply Hchar in Hg as [Hg _].
    rewrite get_personal_group_run in Hnone. simpl in Hnone.
    destruct (filter _ (auth_group db)) as [|g0 [|g1 l]] eqn:Hf; [|done|done].
    assert (g ∈ filter (λ g, group_name g = GROUP_NAME_TPL (Py.str_of_nat (user_id u)))
                       (auth_group db)) as Hin by (by apply list_elem_of_filter).
    rewrite Hf in Hin. by apply elem_of_nil in Hin.
  - unfold get_personal_groups_for_users. simpl.
    apply elem_of_nil_inv. intros g Hg.
    apply list_elem_of_filter in Hg as [Hg _]. by apply elem_of_nil in Hg.
Qed.

Lemma max_group_id_le (g : Group) (l : list Group) :
  g ∈ l → (group_id g ≤ max_list_with group_id l)%nat.
Proof. induction 1; simpl; lia. Qed.

(** X3. When a user has no personal group, [create_personal_group] stores
    one under a new id, [get_personal_group] then returns it, the lookups of
    users with another id answer as before, and a second creation is refused
    with [IntegrityError] and writes nothing. *)
Theorem create_personal_group_round_trip (u : User) (db : DB) :
  (get_personal_group u db).2 = inl DoesNotExist →
  ∃ g db',
    create_personal_group u db = (db', inr g) ∧
    auth_group db' = auth_group db ++ [g] ∧
    (group_id g ∉ group_id <$> auth_group db) ∧
    get_personal_group u db' = (db', inr g) ∧
    (∀ u', user_id u' ≠ user_id u →
           (get_personal_group u' db').2 = (get_personal_group u' db).2) ∧
    create_personal_group u db' = (db', inl IntegrityError).
Proof.
  rewrite get_personal_group_run. simpl.
  destruct (filter _ (auth_group db)) as [|g0 [|g1 l]] eqn:Hf; [|done|done].
  intros _. unfold create_personal_group, Group_save. run_M. rewrite Hf.
  eexists _, _. split; [reflexivity|]. simpl. split; [reflexivity|].
  split; [|split; [|split]].
  - intros Hin. apply list_elem_of_fmap in Hin as (g & Hid & Hg).
    apply max_group_id_le in Hg. lia.
  - rewrite get_personal_group_run. simpl. rewrite filter_app, Hf. simpl.
    rewrite filter_cons_True; [|done]. done.
  - intros u' Hne. rewrite !get_personal_group_run. simpl.
    rewrite filter_app. rewrite (filter_cons_False _ _ []).
    + by rewrite filter_nil, app_nil_r.
    + simpl. intros Hn. apply Hne. symmetry. by apply personal_name_inj.
  - rewrite filter_app, Hf. simpl. rewrite filter_cons_True; [|done]. done.
Qed.

Lemma create_personal_group_round_trip_witness :
  ∃ g db',
    create_personal_group Scenario.carol Example.empty_db = (db', inr g) ∧
    auth_group db' = auth_group Example.empty_db ++ [g] ∧
    (group_id g ∉ group_id <$> auth_group Example.empty_db) ∧
    get_personal_group Scenario.carol db' = (db', inr g) ∧
    (∀ u', user_id u' ≠ user_id Scenario.carol →
           (get_personal_group u' db').2 = (get_personal_group u' Example.empty_db).2) ∧
    create_personal_group Scenario.carol db' = (db', inl IntegrityError).
Proof.
  apply (create_personal_group_round_trip Scenario.carol Example.empty_db).
  vm_compute. reflexivity.
Defined.

(** ** Recipients and the sender index *)

Lemma add_recipients_unfold self rs :
  add_recipients self rs =
  (modify_db (set_message_recipients (m2m_add (msg_id self) (group_id <$> rs)));;
   for_each rs (record_send self)).
Proof. reflexivity. Qed.

Lemma NoDup_m2m_add owner ids tbl : NoDup tbl → NoDup (m2m_add owner ids tbl).
Proof.
  unfold m2m_add. revert tbl. induction ids as [|i ids IH]; intros tbl Hnd; simpl.
  - done.
  - apply IH. case_bool_decide as Hin; [done|].
    apply NoDup_app. split; [done|]. split; [|apply NoDup_singleton].
    intros p Hp Hp'. apply list_elem_of_singleton in Hp'. by subst.
Qed.

Lemma m2m_add_present owner ids tbl :
  (∀ i, i ∈ ids → (owner, i) ∈ tbl) → m2m_add owner ids tbl = tbl.
Proof.
  unfold m2m_add. induction ids as [|i ids IH]; intros Hin; simpl; [done|].
  rewrite bool_decide_eq_true_2 by (apply Hin; by left).
  apply IH. intros j Hj. apply Hin. by right.
Qed.

(** X4. [add_recipients] adds to the recipient links exactly the links of
    the message to the given groups, whether it returns or raises; it creates
    no duplicate link; and adding the same recipients again changes no link. *)
Theorem add_recipients_links (self : Message) (rs : list Group) (db db' : DB)
    (res : exn + unit) :
  add_recipients self rs db = (db', res) →
  (∀ p, p ∈ message_recipients db' ↔
        p ∈ message_recipients db ∨ (p.1 = msg_id self ∧ p.2 ∈ group_id <$> rs)) ∧
  (NoDup (message_recipients db) → NoDup (message_recipients db')) ∧
  (∀ db'' res', add_recipients self rs db' = (db'', res') →
                message_recipients db'' = message_recipients db').
Proof.
  intros Hrun. apply add_recipients_frame in Hrun as (_ & _ & _ & Hl & _).
  split; [|split].
  - intros p. rewrite Hl. apply elem_of_m2m_add.
  - intros Hnd. rewrite Hl. by apply NoDup_m2m_add.
  - intros db'' res' Hagain.
    apply add_recipients_frame in Hagain as (_ & _ & _ & Hl' & _).
    rewrite Hl'. apply m2m_add_present. intros i Hi. rewrite Hl.
    apply elem_of_m2m_add. right. done.
Qed.

Lemma add_recipients_links_witness :
  (∀ p, p ∈ message_recipients
              (add_recipients Example.thread_root [Example.bob_group] Example.thread_db).1 ↔
        p ∈ message_recipients Example.thread_db ∨
        (p.1 = 1 ∧ p.2 ∈ group_id <$> [Example.bob_group])) ∧
  (NoDup (message_recipients Example.thread_db) →
   NoDup (message_recipients
            (add_recipients Example.thread_root [Example.bob_group] Example.thread_db).1)) ∧
  (∀ db'' res',
     add_recipients Example.thread_root [Example.bob_group]
       (add_recipients Example.thread_root [Example.bob_group] Example.thread_db).1
       = (db'', res') →
     message_recipients db'' =
     message_recipients
       (add_recipients Example.thread_root [Example.bob_group] Example.thread_db).1).
Proof.
  apply (add_recipients_links Example.thread_root [Example.bob_group]
           Example.thread_db
           (add_recipients Example.thread_root [Example.bob_group] Example.thread_db).1
           (add_recipients Example.thread_root [Example.bob_group] Example.thread_db).2).
  apply surjective_pairing.
Defined.

Lemma filter_unique_key {A} (f : A → nat) (k : nat) (l : list A) a b r :
  NoDup (f <$> l) → filter (λ x, f x = k) l = a :: b :: r → False.
Proof.
  revert a b r. induction l as [|x l IH]; intros a b r Hnd Hf; [done|].
  rewrite fmap_cons in Hnd. apply NoDup_cons in Hnd as [Hx Hnd].
  rewrite filter_cons in Hf. destruct (decide (f x = k)) as [Hk|Hk].
  - injection Hf as -> Hf.
    assert (b ∈ filter (λ x, f x = k) l) as Hb by (rewrite Hf; by left).
    apply list_elem_of_filter in Hb as [Hbk Hb]. apply Hx.
    rewrite Hk, <- Hbk. by apply list_elem_of_fmap_2.
  - by eapply IH.
Qed.

Lemma in_sender_index_mono db db' gid uid :
  (∀ sl, sl ∈ senderlist_tbl db → sl ∈ senderlist_tbl db') →
  (∀ p, p ∈ senderlist_senders db → p ∈ senderlist_senders db') →
  in_sender_index db gid uid → in_sender_index db' gid uid.
Proof.
  intros Ht Hs (sl & Hsl & Hr & Hlink). exists sl. auto.
Qed.

(** One round of the loop of [add_recipients], on a sender index with one
    list per group. *)
Lemma record_send_run self g db :
  senderlist_unique db →
  ∃ db',
    record_send self g db = (db', inr tt) ∧
    senderlist_unique db' ∧ same_store db db' ∧
    in_sender_index db' (group_id g) (user_id (sender self)) ∧
    (∀ gid uid, in_sender_index db gid uid → in_sender_index db' gid uid).
Proof.
  intros Huniq. unfold record_send, SenderList_get_or_create.
  unfold mbind, M_bind, mret, M_ret, get_db, modify_db, raise.
  destruct (filter (λ sl, recipient sl = group_id g) (senderlist_tbl db))
    as [|sl [|sl' l]] eqn:Hf.
  - eexists. split; [reflexivity|]. split; [|split; [|split]].
    + unfold senderlist_unique in *. simpl. rewrite fmap_app. simpl.
      apply NoDup_app. split; [done|]. split; [|apply NoDup_singleton].
      intros gid Hin Hgid. apply list_elem_of_singleton in Hgid. subst gid.
      apply list_elem_of_fmap in Hin as (sl & Hr & Hsl).
      assert (sl ∈ filter (λ sl, recipient sl = group_id g) (senderlist_tbl db))
        as Hin by (by apply list_elem_of_filter).
      rewrite Hf in Hin. by apply elem_of_nil in Hin.
    + by repeat split.
    + exists {| senderlist_id := next_senderlist_id db; recipient := group_id g |}.
      split; [|split; [reflexivity|]].
      * simpl. apply elem_of_app. right. by left.
      * cbn -[m2m_add]. apply elem_of_m2m_add. right. simpl. split; [done|by left].
    + intros gid uid. apply in_sender_index_mono.
      * intros sl Hsl. simpl. apply elem_of_app. by left.
      * intros p Hp. cbn -[m2m_add]. apply elem_of_m2m_add. by left.
  - assert (sl ∈ filter (λ sl, recipient sl = group_id g) (senderlist_tbl db))
      as Hin by (rewrite Hf; by left).
    apply list_elem_of_filter in Hin as [Hr Hsl].
    eexists. split; [reflexivity|]. split; [done|]. split; [by repeat split|].
    split.
    + exists sl. split; [done|]. split; [done|].
      cbn -[m2m_add]. apply elem_of_m2m_add. right. simpl. split; [done|by left].
    + intros gid uid. apply in_sender_index_mono; [done|].
      intros p Hp. cbn -[m2m_add]. apply elem_of_m2m_add. by left.
  - exfalso. by eapply (filter_unique_key recipient).
Qed.

Lemma for_each_record_send_run self rs db :
  senderlist_unique db →
  ∃ db',
    for_each rs (record_send self) db = (db', inr tt) ∧
    senderlist_unique db' ∧ same_store db db' ∧
    (∀ g, g ∈ rs → in_sender_index db' (group_id g) (user_id (sender self))) ∧
    (∀ gid uid, in_sender_index db gid uid → in_sender_index db' gid uid).
Proof.
  revert db. induction rs as [|g rs IH]; intros db Huniq.
  - exists db. split; [done|]. split; [done|]. split; [apply same_store_refl|].
    split; [|done]. intros g Hg. by apply elem_of_nil in Hg.
  - destruct (record_send_run self g db Huniq)
      as (db1 & Hrun & Huniq1 & Hsame1 & Hin1 & Hmono1).
    destruct (IH db1 Huniq1) as (db2 & Hrun2 & Huniq2 & Hsame2 & Hin2 & Hmono2).
    exists db2. split.
    { simpl. unfold mbind, M_bind. by rewrite Hrun. }
    split; [done|]. split; [by eapply same_store_trans|]. split; [|by auto].
    intros g' Hg'. apply elem_of_cons in Hg' as [->|Hg']; auto.
Qed.

(** X5. On a sender index with one list per recipient group,
    [add_recipients] returns, keeps one list per group, leaves the sender of
    the message in the list of every given group, and removes no sender from
    any list. *)
Theorem add_recipients_sender_index (self : Message) (rs : list Group) (db : DB) :
  senderlist_unique db →
  ∃ db',
    add_recipients self rs db = (db', inr tt) ∧
    senderlist_unique db' ∧
    (∀ g, g ∈ rs → in_sender_index db' (group_id g) (user_id (sender self))) ∧
    (∀ gid uid, in_sender_index db gid uid → in_sender_index db' gid uid).
Proof.
  intros Huniq. rewrite add_recipients_unfold.
  destruct (for_each_record_send_run self rs
              (set_message_recipients (m2m_add (msg_id self) (group_id <$> rs)) db)
              Huniq)
    as (db' & Hrun & Huniq' & _ & Hin & Hmono).
  exists db'. split; [|split; [done|split; [done|]]].
  - unfold mbind, M_bind, modify_db. exact Hrun.
  - intros gid uid Hold. apply Hmono.
    destruct Hold as (sl & ? & ? & ?). by exists sl.
Qed.

Lemma add_recipients_sender_index_witness :
  senderlist_unique Example.thread_db ∧
  ∃ db',
    add_recipients Example.thread_root [Example.bob_group] Example.thread_db
      = (db', inr tt) ∧
    senderlist_unique db' ∧
    (∀ g, g ∈ [Example.bob_group] →
          in_sender_index db' (group_id g) (user_id (sender Example.thread_root))) ∧
    (∀ gid uid, in_sender_index Example.thread_db gid uid →
                in_sender_index db' gid uid).
Proof.
  assert (senderlist_unique Example.thread_db) as Huniq
    by (apply (bool_decide_unpack _); vm_compute; exact I).
  split; [exact Huniq|].
  exact (add_recipients_sender_index Example.thread_root [Example.bob_group]
           Example.thread_db Huniq).
Defined.

Lemma elem_of_senders_for_user auth_user db u senders :
  get_senders_for_user auth_user db (Some u) = inr senders →
  ∀ x, x ∈ senders ↔
       x ∈ auth_user ∧
       ∃ g, g ∈ groups_all db u ∧ in_sender_index db (group_id g) (user_id x).
Proof.
  intros [= <-] x. rewrite list_elem_of_filter, elem_of_remove_dups.
  rewrite list_elem_of_bind. split.
  - intros [(sl & Hlinks & Hsl) Hx]. split; [done|].
    apply list_elem_of_filter in Hsl as [Hrec Hsl].
    apply list_elem_of_fmap in Hrec as (g & Hr & Hg).
    apply list_elem_of_bind in Hlinks as (link & Hid & Hlink).
    apply list_elem_of_singleton in Hid.
    apply list_elem_of_filter in Hlink as [Hk Hlink].
    exists g. split; [done|]. exists sl. split; [done|]. split; [done|].
    rewrite Hid, <- Hk. by destruct link.
  - intros [Hx (g & Hg & sl & Hsl & Hr & Hlink)]. split; [|done].
    exists sl. split.
    + apply list_elem_of_bind. exists (senderlist_id sl, user_id x).
      split; [by left|]. by apply list_elem_of_filter.
    + apply list_elem_of_filter. split; [|done].
      rewrite Hr. by apply list_elem_of_fmap_2.
Qed.

(** X6. [get_senders_for_user] needs a user ([AttributeError] without
    one); for a user it returns the users of the user table who are in the
    sender list of one of the groups the user belongs to, each once when the
    user table has no duplicate. *)
Theorem get_senders_for_user_members (auth_user : list User) (db : DB) (u : User) :
  get_senders_for_user auth_user db None = inl AttributeError ∧
  ∃ senders,
    get_senders_for_user auth_user db (Some u) = inr senders ∧
    (∀ x, x ∈ senders ↔
          x ∈ auth_user ∧
          ∃ g, g ∈ groups_all db u ∧ in_sender_index db (group_id g) (user_id x)) ∧
    (groups_all db u = [] → senders = []) ∧
    (NoDup auth_user → NoDup senders).
Proof.
  split; [done|]. eexists. split; [reflexivity|]. split; [|split].
  - by apply elem_of_senders_for_user.
  - intros Hnone. apply elem_of_nil_inv. intros x Hx.
    apply (elem_of_senders_for_user auth_user db u _ eq_refl) in Hx
      as [_ (g & Hg & _)].
    rewrite Hnone in Hg. by apply elem_of_nil in Hg.
  - intros Hnd. by apply NoDup_filter.
Qed.

(** X7. After [add_recipients] on a sender index with one list per group,
    every user who could see a sender through [get_senders_for_user] still
    sees that sender, and every member of one of the recipient groups sees
    the sender of the message, when that sender is in the user table. *)
Theorem add_recipients_senders_visible (auth_user : list User) (self : Message)
    (rs : list Group) (db : DB) :
  senderlist_unique db →
  ∃ db',
    add_recipients self rs db = (db', inr tt) ∧
    ∀ R senders senders',
      get_senders_for_user auth_user db (Some R) = inr senders →
      get_senders_for_user auth_user db' (Some R) = inr senders' →
      (∀ x, x ∈ senders → x ∈ senders') ∧
      (sender self ∈ auth_user → (∃ g, g ∈ rs ∧ g ∈ groups_all db R) →
       sender self ∈ senders').
Proof.
  intros Huniq. rewrite add_recipients_unfold.
  destruct (for_each_record_send_run self rs
              (set_message_recipients (m2m_add (msg_id self) (group_id <$> rs)) db)
              Huniq)
    as (db' & Hrun & _ & Hsame & Hin & Hmono).
  exists db'. split; [unfold mbind, M_bind, modify_db; exact Hrun|].
  intros R senders senders' Hbefore Hafter.
  assert (groups_all db' R = groups_all db R) as Hgroups.
  { destruct Hsame as (Hg & Hug & _). unfold groups_all. by rewrite Hg, Hug. }
  pose proof (elem_of_senders_for_user _ _ _ _ Hbefore) as Hb.
  pose proof (elem_of_senders_for_user _ _ _ _ Hafter) as Ha.
  split.
  - intros x Hx. apply Ha. apply Hb in Hx as [Hx (g & Hg & Hidx)].
    split; [done|]. exists g. rewrite Hgroups. split; [done|].
    apply Hmono. destruct Hidx as (sl & ? & ? & ?). by exists sl.
  - intros Hs (g & Hg & Hmember). apply Ha. split; [done|].
    exists g. rewrite Hgroups. split; [done|]. by apply Hin.
Qed.

Lemma add_recipients_senders_visible_witness :
  senderlist_unique Example.thread_db ∧
  ∃ db',
    add_recipients Example.thread_root [Example.bob_group] Example.thread_db
      = (db', inr tt) ∧
    ∀ R senders senders',
      get_senders_for_user Scenario.users Example.thread_db (Some R) = inr senders →
      get_senders_for_user Scenario.users db' (Some R) = inr senders' →
      (∀ x, x ∈ senders → x ∈ senders') ∧
      (sender Example.thread_root ∈ Scenario.users →
       (∃ g, g ∈ [Example.bob_group] ∧ g ∈ groups_all Example.thread_db R) →
       sender Example.thread_root ∈ senders').
Proof.
  assert (senderlist_unique Example.thread_db) as Huniq
    by (apply (bool_decide_unpack _); vm_compute; exact I).
  split; [exact Huniq|].
  exact (add_recipients_senders_visible Scenario.users Example.thread_root
           [Example.bob_group] Example.thread_db Huniq).
Defined.

(** ** Unarchiving and the views *)

Lemma elem_of_all_messages db i m :
  message_tbl db !! i = Some m → m ∈ all_messages db.
Proof.
  intros Hm. unfold all_messages. apply list_elem_of_fmap.
  exists (i, m). split; [done|]. by apply elem_of_map_to_list.
Qed.

Lemma base_filter_same db db' R by_sender m :
  message_tbl db' = message_tbl db →
  message_recipients db' = message_recipients db →
  auth_group db' = auth_group db →
  auth_user_groups db' = auth_user_groups db →
  Spec.base_filter db R by_sender m → Spec.base_filter db' R by_sender m.
Proof.
  intros Ht Hl Hg Hug. unfold Spec.base_filter, all_messages, recipients_all, groups_all.
  by rewrite Ht, Hl, Hg, Hug.
Qed.

Lemma unarchive_memo_status self memo :
  message (unarchive_memo self memo) = msg_id self →
  status (unarchive_memo self memo) = SEEN.
Proof.
  unfold unarchive_memo. case_decide as H; [done|].
  intros Hk. destruct (status memo) eqn:Hs; [done|]. tauto.
Qed.

Lemma unarchive_memo_idemp self memo :
  unarchive_memo self (unarchive_memo self memo) = unarchive_memo self memo.
Proof.
  destruct (decide (message memo = msg_id self ∧ status memo = ARCHIVED)) as [H|H].
  - assert (unarchive_memo self memo = set_status SEEN memo) as ->
      by (unfold unarchive_memo; by rewrite decide_True).
    by apply unarchive_memo_seen.
  - assert (unarchive_memo self memo = memo) as Hid
      by (unfold unarchive_memo; by rewrite decide_False).
    by rewrite !Hid.
Qed.

(** After the memos went through [unarchive_memo], no deleted view lists
    the message. *)
Lemma unarchived_not_deleted db self memos R by_sender threads m :
  messagememo_tbl db = unarchive_memo self <$> memos →
  get_threads db (Some R) by_sender true = inr threads →
  m ∈ threads → msg_id m ≠ msg_id self.
Proof.
  intros Hmemos [= <-] Hin Hid.
  apply elem_of_filter_with_memo in Hin as [_ (memo & Hmemo & Hk & _ & Hst)].
  rewrite Hmemos in Hmemo. apply list_elem_of_fmap in Hmemo as (memo0 & -> & _).
  rewrite unarchive_memo_status in Hst; [done|congruence].
Qed.

(** X8. [unarchive] leaves no ARCHIVED memo on the message: afterwards the
    message is in no user's deleted view, a thread that was in a user's
    deleted view is in that user's inbox view, and a second [unarchive]
    changes nothing. *)
Theorem unarchive_clears_deleted_view (self : Message) (db : DB) :
  ∃ db',
    unarchive self db = (db', inr tt) ∧
    (∀ memo, memo ∈ messagememo_tbl db' → message memo = msg_id self →
             status memo = SEEN) ∧
    (∀ R by_sender threads m,
       get_threads db' (Some R) by_sender true = inr threads →
       m ∈ threads → msg_id m ≠ msg_id self) ∧
    (∀ R by_sender deleted inbox m,
       get_threads db (Some R) by_sender true = inr deleted →
       get_threads db' (Some R) by_sender false = inr inbox →
       m ∈ deleted → msg_id m = msg_id self → m ∈ inbox) ∧
    unarchive self db' = (db', inr tt).
Proof.
  eexists. split; [apply unarchive_run|]. split; [|split; [|split]].
  - simpl. intros memo Hin Hk. apply list_elem_of_fmap in Hin as (memo0 & -> & _).
    by apply unarchive_memo_status.
  - intros R by_sender threads m. by apply unarchived_not_deleted with (memos := messagememo_tbl db).
  - intros R by_sender deleted inbox m [= <-] [= <-] Hin Hid.
    apply elem_of_filter_with_memo in Hin as [Hbase (memo & Hmemo & Hk & Hu & Hst)].
    unfold union_distinct. rewrite elem_of_remove_dups, elem_of_app. left.
    change (groups_all (set_messagememo_tbl (fmap (unarchive_memo self)) db) R)
      with (groups_all db R).
    change (groups_all db R)
      with (groups_all (set_messagememo_tbl (fmap (unarchive_memo self)) db) R).
    apply elem_of_filter_with_memo. split.
    + by apply (base_filter_same db).
    + exists (unarchive_memo self memo).
      destruct (unarchive_memo_keys self memo) as (_ & Hu' & Hk').
      split; [simpl; by apply list_elem_of_fmap_2|].
      split; [congruence|]. split; [congruence|].
      apply unarchive_memo_status. congruence.
  - rewrite unarchive_run. f_equal. apply set_messagememo_tbl_id. simpl.
    rewrite <- list_fmap_compose. rewrite <- (list_fmap_id (_ <$> _)) at 1.
    rewrite <- list_fmap_compose.
    apply list_fmap_ext. intros i memo _. simpl. apply unarchive_memo_idemp.
Qed.

(** ** The state after [create] and [create_response] *)

Lemma create_inr_shape now kw db db' m r :
  create now kw db = (db', inr (m, r)) →
  ∃ s txt h,
    kw_sender kw = Some s ∧ kw_text kw = Some txt ∧
    (match kw_headline kw with Some h => Some h | None => txt end) = Some h ∧
    (create_root kw db).2 = inr r ∧
    memos_of db s (next_message_id db) = [] ∧
    m = created_message now kw db r s txt (Py.slice_to MAX_TITLE_LENGTH h) ∧
    db' = with_memo (self_memo db m s) (with_message m db).
Proof.
  rewrite create_run.
  destruct (create_root kw db).2 as [e|r0]; [done|].
  destruct (kw_text kw) as [txt|]; [|done].
  destruct (match kw_headline kw with Some h => Some h | None => txt end)
    as [h|] eqn:Hh; [|done].
  destruct (kw_sender kw) as [s|]; [|done]. simpl.
  destruct (memos_of db s (next_message_id db)) eqn:Hmemos; [|done].
  intros [= <- <- <-]. by exists s, txt, h.
Qed.

Lemma update_senders_info_eq self db :
  update_senders_info self db =
  (set_message_tbl (insert (msg_id self)
                      (set_senders_info (new_senders_info self) self)) db,
   inr (set_senders_info (new_senders_info self) self)).
Proof. reflexivity. Qed.

(** The database a [create_response] that returns leaves. *)
Lemma create_response_state now s txt parent db db' message :
  create_response now s txt (Some parent) db = (db', inr message) →
  ∃ s0 t message_root senders_group,
    s = Some s0 ∧ txt = Some t ∧
    (create_root (response_kwargs s txt (Some parent)) db).2
      = inr (Some message_root) ∧
    memos_of db s0 (next_message_id db) = [] ∧
    message = created_message now (response_kwargs s txt (Some parent)) db
                (Some message_root) s0 (Some t) (Py.slice_to MAX_TITLE_LENGTH t) ∧
    get_personal_group (sender parent) db = (db, inr senders_group) ∧
    auth_group db' = auth_group db ∧
    auth_user_groups db' = auth_user_groups db ∧
    message_tbl db' =
      <[msg_id message_root := refreshed_root (now 2) message_root]>
        (<[next_message_id db := message]> (message_tbl db)) ∧
    message_recipients db' =
      m2m_add (msg_id parent) [group_id senders_group]
        (m2m_add (next_message_id db)
           (group_id <$> set_add senders_group
                           (set_of_groups (recipients_all db parent)))
           (message_recipients db)) ∧
    messagememo_tbl db' =
      unarchive_memo (refreshed_root (now 2) message_root) <$>
        (messagememo_tbl db ++ [self_memo db message s0]).
Proof.
  intros Hrun.
  apply create_response_inr in Hrun
    as (db1 & db2 & db3 & db4 & sg & root0 & root1 &
        Hcreate & Hgroup & Hadd1 & Hadd2 & Hupd & Hun).
  apply create_inr_shape in Hcreate
    as (s0 & txt0 & h & Hs & Ht & Hh & Hroot & Hmemos & Hm & Hdb1).
  simpl in Hs, Ht, Hh. injection Ht as <-. subst s.
  destruct txt as [t|]; [|done]. injection Hh as <-.
  assert (auth_group db1 = auth_group db) as Hg1 by (by subst db1).
  assert (message_recipients db1 = message_recipients db) as Hl1 by (by subst db1).
  assert (recipients_all db1 parent = recipients_all db parent) as Hr1
    by (unfold recipients_all; by rewrite Hg1, Hl1).
  assert (get_personal_group (sender parent) db = (db, inr sg)) as Hgroup0.
  { revert Hgroup. rewrite !get_personal_group_run, Hg1. by intros [= ->]. }
  apply add_recipients_frame in Hadd1 as (Hg2 & Hug2 & Ht2 & Hl2 & Hm2 & _).
  apply add_recipients_frame in Hadd2 as (Hg3 & Hug3 & Ht3 & Hl3 & Hm3 & _).
  rewrite update_senders_info_eq in Hupd. injection Hupd as <- <-.
  rewrite unarchive_run in Hun. injection Hun as <-.
  exists s0, t, root0, sg.
  split; [done|]. split; [done|]. split; [exact Hroot|]. split; [done|].
  split; [exact Hm|]. split; [exact Hgroup0|]. simpl.
  rewrite Hg3, Hg2, Hug3, Hug2, Ht3, Ht2, Hl3, Hl2, Hm3, Hm2, Hr1, Hl1.
  subst db1. subst message. simpl. done.
Qed.

(** X9. An answer revives its thread for everyone: after a
    [create_response] that returns, no memo on the root of the answer is
    ARCHIVED, and no user's deleted view lists that root. *)
Theorem create_response_unarchives (now : Clock) (s : option User)
    (txt : option string) (parent : Message) (db db' : DB) (answer : Message) :
  create_response now s txt (Some parent) db = (db', inr answer) →
  ∃ rt,
    root answer = Some rt ∧
    (∀ memo, memo ∈ messagememo_tbl db' → message memo = rt → status memo = SEEN) ∧
    (∀ R by_sender threads m,
       get_threads db' (Some R) by_sender true = inr threads →
       m ∈ threads → msg_id m ≠ rt).
Proof.
  intros Hrun.
  apply create_response_state in Hrun
    as (s0 & t & root0 & sg & _ & _ & _ & _ & Hm & _ & _ & _ & _ & _ & Hmemos).
  exists (msg_id root0). split; [by subst answer|]. split.
  - intros memo Hin Hk. rewrite Hmemos in Hin.
    apply list_elem_of_fmap in Hin as (memo0 & -> & _).
    by apply unarchive_memo_status.
  - intros R by_sender threads m Hview Hin.
    by apply (unarchived_not_deleted db' (refreshed_root (now 2) root0) _ R by_sender
                threads m Hmemos Hview Hin).
Qed.

Lemma create_response_unarchives_witness :
  ∃ rt,
    root Example.reply = Some rt ∧
    (∀ memo,
       memo ∈ messagememo_tbl
                (create_response (Example.ticking 20) (Some Example.bob) (Some "Hi")
                   (Some Example.thread_root) Scenario.bob_archived_db).1 →
       message memo = rt → status memo = SEEN) ∧
    (∀ R by_sender threads m,
       get_threads
         (create_response (Example.ticking 20) (Some Example.bob) (Some "Hi")
            (Some Example.thread_root) Scenario.bob_archived_db).1
         (Some R) by_sender true = inr threads →
       m ∈ threads → msg_id m ≠ rt).
Proof.
  apply (create_response_unarchives (Example.ticking 20) (Some Example.bob) (Some "Hi")
           Example.thread_root Scenario.bob_archived_db).
  vm_compute. reflexivity.
Defined.

Lemma create_root_of_root_parent s txt parent db :
  root parent = None →
  (create_root (response_kwargs s txt (Some parent)) db).2 = inr (Some parent).
Proof.
  intros Hroot. unfold create_root, Message_root. simpl. by rewrite Hroot.
Qed.

(** X10. An answer to a stored thread root reaches the author of the root:
    after a [create_response] that returns on a parent without root and of
    type STORED, the root is in the inbox view of every member of the
    personal group of the parent's sender (with no sender filter, or with the
    parent's sender as filter). *)
Theorem create_response_reaches_author (now : Clock) (s : option User)
    (txt : option string) (parent : Message) (db db' : DB) (message : Message)
    (g : Group) (R : User) (by_sender : option User) :
  root parent = None →
  message_type parent = STORED →
  create_response now s txt (Some parent) db = (db', inr message) →
  get_personal_group (sender parent) db = (db, inr g) →
  g ∈ groups_all db R →
  (∀ x, by_sender = Some x → user_id (sender parent) = user_id x) →
  ∃ thread threads,
    message_tbl db' !! msg_id parent = Some thread ∧
    get_threads db' (Some R) by_sender false = inr threads ∧
    thread ∈ threads.
Proof.
  intros Hroot Htype Hrun Hg Hmember Hby.
  apply create_response_state in Hrun
    as (s0 & t & root0 & sg & _ & _ & Hr0 & _ & _ & Hsg & Hag & Hug & Htbl & Hl & Hmemos).
  rewrite (create_root_of_root_parent _ _ _ _ Hroot) in Hr0.
  injection Hr0 as <-. rewrite Hg in Hsg. injection Hsg as <-.
  pose proof (get_personal_group_inr _ _ _ _ Hg) as (_ & Hgin & _).
  set (thread := refreshed_root (now 2) parent) in *.
  assert (message_tbl db' !! msg_id parent = Some thread) as Hthread
    by (rewrite Htbl; apply lookup_insert_eq).
  exists thread. eexists. split; [exact Hthread|]. split; [reflexivity|].
  assert (Spec.base_filter db' R by_sender thread) as Hbase.
  { split; [by eapply elem_of_all_messages|]. split; [exact Hroot|].
    split; [exact Htype|]. split.
    - exists g. unfold recipients_all, groups_all. rewrite Hag, Hug, Hl. split.
      + apply list_elem_of_filter. split; [|done].
        apply elem_of_m2m_add. right. split; [done|]. by left.
      + exact Hmember.
    - intros x Hx. by apply Hby. }
  unfold union_distinct. rewrite elem_of_remove_dups, elem_of_app.
  destruct (decide (Q_memos_user db' R thread)) as [Hhas|Hno].
  - left. apply elem_of_filter_with_memo. split; [done|].
    apply Exists_exists in Hhas as (memo & Hin & Hk & Hu).
    exists memo. split; [done|]. split; [done|]. split; [done|].
    rewrite Hmemos in Hin. apply list_elem_of_fmap in Hin as (memo0 & -> & _).
    by apply unarchive_memo_status.
  - right. apply elem_of_filter_without_memo. split; [done|].
    by apply Q_memos_user_no_memo.
Qed.

Lemma create_response_reaches_author_witness :
  ∃ thread threads,
    message_tbl Example.reply_db !! 1 = Some thread ∧
    get_threads Example.reply_db (Some Example.alice) None false = inr threads ∧
    thread ∈ threads.
Proof.
  apply (create_response_reaches_author (Example.ticking 20) (Some Example.bob) (Some "Hi")
           Example.thread_root Example.thread_db Example.reply_db Example.reply
           Example.alice_group Example.alice None).
  - reflexivity.
  - reflexivity.
  - vm_compute. reflexivity.
  - vm_compute. reflexivity.
  - apply (bool_decide_unpack _). vm_compute. exact I.
  - intros x Hx. discriminate Hx.
Defined.

(** X11. Besides the new message and the thread root, a [create_response]
    that returns on a stored parent changes no stored message; of the root
    row it changes only [senders_info] and [last_active_at], which becomes the
    time read for it, the third reading of the call; and it leaves the groups
    and memberships as they were. *)
Theorem create_response_frame (now : Clock) (s : option User)
    (txt : option string) (parent : Message) (db db' : DB) (message : Message) :
  integrity db →
  message_tbl db !! msg_id parent = Some parent →
  create_response now s txt (Some parent) db = (db', inr message) →
  ∃ rt old new,
    root message = Some rt ∧ rt ≠ msg_id message ∧
    message_tbl db !! rt = Some old ∧
    message_tbl db' !! rt = Some new ∧
    last_active_at new = now 2 ∧
    set_last_active_at (last_active_at old)
      (set_senders_info (senders_info old) new) = old ∧
    message_tbl db !! msg_id message = None ∧
    message_tbl db' !! msg_id message = Some message ∧
    (∀ i, i ≠ rt → i ≠ msg_id message →
          message_tbl db' !! i = message_tbl db !! i) ∧
    auth_group db' = auth_group db ∧
    auth_user_groups db' = auth_user_groups db.
Proof.
  intros Hint Hparent Hrun.
  apply create_response_state in Hrun
    as (s0 & t & root0 & sg & _ & _ & Hr0 & _ & Hm & _ & Hag & Hug & Htbl & _ & _).
  pose proof (integrity_fresh_key db Hint) as Hfresh.
  assert (message_tbl db !! msg_id root0 = Some root0) as Hstored.
  { destruct (create_root_inr _ _ _ Hint Hr0) as [_ Hcase].
    destruct (Hcase eq_refl root0 eq_refl) as [[= <-]|H]; done. }
  assert (msg_id message = next_message_id db) as Hid by (by subst message).
  assert (msg_id root0 ≠ next_message_id db) as Hne by congruence.
  exists (msg_id root0), root0, (refreshed_root (now 2) root0).
  split; [by subst message|]. split; [congruence|]. split; [done|].
  split; [rewrite Htbl; apply lookup_insert_eq|]. split; [done|].
  split; [by destruct root0|]. split; [by rewrite Hid|]. split.
  { rewrite Htbl, Hid. rewrite lookup_insert_ne; [|done]. apply lookup_insert_eq. }
  split; [|done].
  intros i Hi1 Hi2. rewrite Htbl. rewrite lookup_insert_ne; [|done].
  rewrite lookup_insert_ne; [done|congruence].
Qed.

Lemma create_response_frame_witness :
  integrity Example.thread_db ∧
  ∃ rt old new,
    root Example.reply = Some rt ∧ rt ≠ msg_id Example.reply ∧
    message_tbl Example.thread_db !! rt = Some old ∧
    message_tbl Example.reply_db !! rt = Some new ∧
    last_active_at new = 22 ∧
    set_last_active_at (last_active_at old)
      (set_senders_info (senders_info old) new) = old ∧
    message_tbl Example.thread_db !! msg_id Example.reply = None ∧
    message_tbl Example.reply_db !! msg_id Example.reply = Some Example.reply ∧
    (∀ i, i ≠ rt → i ≠ msg_id Example.reply →
          message_tbl Example.reply_db !! i = message_tbl Example.thread_db !! i) ∧
    auth_group Example.reply_db = auth_group Example.thread_db ∧
    auth_user_groups Example.reply_db = auth_user_groups Example.thread_db.
Proof.
  assert (integrity Example.thread_db) as Hint
    by (apply (bool_decide_unpack _); vm_compute; exact I).
  split; [exact Hint|].
  apply (create_response_frame (Example.ticking 20) (Some Example.bob) (Some "Hi")
           Example.thread_root Example.thread_db Example.reply_db Example.reply Hint);
    vm_compute; reflexivity.
Defined.

(** ** Opening a thread *)

Lemma add_recipients_returns self rs db :
  senderlist_unique db →
  ∃ db', add_recipients self rs db = (db', inr tt) ∧ senderlist_unique db'.
Proof.
  intros Huniq. rewrite add_recipients_unfold.
  destruct (for_each_record_send_run self rs
              (set_message_recipients (m2m_add (msg_id self) (group_id <$> rs)) db)
              Huniq)
    as (db' & Hrun & Huniq' & _).
  exists db'. split; [|done]. unfold mbind, M_bind, modify_db. exact Hrun.
Qed.

(** The database a [create_thread] with all its arguments leaves, on a store
    with intact keys and one sender list per group. *)
Lemma create_thread_state now s rs t db :
  integrity db → senderlist_unique db →
  ∃ db',
    create_thread now (Some s) (Some rs) (Some t) db =
      (db', inr (created_message now (thread_kwargs s (Some t)) db None s (Some t)
                   (Py.slice_to MAX_TITLE_LENGTH t))) ∧
    auth_group db' = auth_group db ∧
    auth_user_groups db' = auth_user_groups db ∧
    message_tbl db' =
      <[next_message_id db :=
          created_message now (thread_kwargs s (Some t)) db None s (Some t)
            (Py.slice_to MAX_TITLE_LENGTH t)]> (message_tbl db) ∧
    message_recipients db' =
      m2m_add (next_message_id db) (group_id <$> rs) (message_recipients db) ∧
    messagememo_tbl db' =
      messagememo_tbl db ++
        [{| memo_id := next_memo_id db; user := s;
            message := next_message_id db; status := SEEN |}] ∧
    senderlist_unique db'.
Proof.
  intros Hint Huniq. unfold create_thread.
  change {| kw_root := None; kw_parent := None; kw_message_type := Some STORED;
            kw_sender := Some s; kw_senders_info := Some (username s);
            kw_headline := None; kw_text := Some (Some t); kw_html := None;
            kw_sent_at := None; kw_last_active_at := None;
            kw_active_until := None |}
    with (thread_kwargs s (Some t)).
  unfold mbind at 1. unfold M_bind at 1.
  rewrite (create_succeeds now (thread_kwargs s (Some t)) db None s t Hint
             eq_refl eq_refl eq_refl).
  cbv zeta. simpl default.
  set (m := created_message _ _ _ _ _ _ _).
  set (db1 := with_memo _ _).
  destruct (add_recipients_returns m rs db1) as (db2 & Hadd & Huniq2); [done|].
  cbv beta iota. unfold mbind, M_bind. rewrite Hadd.
  apply add_recipients_frame in Hadd as (Hg & Hug & Ht & Hl & Hm & _).
  exists db2. split; [reflexivity|]. by rewrite Hg, Hug, Ht, Hl, Hm.
Qed.

(** X12. On a store with intact keys and one sender list per group, a
    [create_thread] with a sender, recipients and a text returns a stored
    thread root of type STORED whose [senders_info] is the sender's name; its
    recipients are the given groups that exist; and the thread is in the inbox
    view of every member of one of the given groups. *)
Theorem create_thread_reaches_members (now : Clock) (s : User) (rs : list Group)
    (t : string) (db : DB) :
  integrity db →
  senderlist_unique db →
  ∃ db' thread,
    create_thread now (Some s) (Some rs) (Some t) db = (db', inr thread) ∧
    message_tbl db' !! msg_id thread = Some thread ∧
    root thread = None ∧ parent thread = None ∧
    message_type thread = STORED ∧ sender thread = s ∧
    senders_info thread = username s ∧ text thread = Some t ∧
    (∀ g, g ∈ recipient_ids db' thread ↔
          g ∈ group_id <$> rs ∧ g ∈ group_id <$> auth_group db) ∧
    (∀ R g, g ∈ rs → g ∈ groups_all db R →
       ∃ threads, get_threads db' (Some R) None false = inr threads ∧
                  thread ∈ threads).
Proof.
  intros Hint Huniq.
  destruct (create_thread_state now s rs t db Hint Huniq)
    as (db' & Hrun & Hag & Hug & Htbl & Hl & Hmemos & _).
  set (thread := created_message _ _ _ _ _ _ _) in *.
  assert (message_tbl db' !! msg_id thread = Some thread) as Hstored
    by (rewrite Htbl; apply lookup_insert_eq).
  assert (∀ g, (next_message_id db, g) ∉ message_recipients db) as Hnolink.
  { intros g Hin. destruct Hint as (Hkeys & _ & Hfk).
    unfold recipients_fk in Hfk. rewrite Forall_forall in Hfk.
    destruct (Hfk _ Hin) as [x Hx]. apply Hkeys in Hx. simpl in Hx. lia. }
  exists db', thread. split; [exact Hrun|]. split; [exact Hstored|].
  do 6 (split; [reflexivity|]). split.
  - intros g. unfold recipient_ids, recipients_all.
    rewrite list_elem_of_fmap, Hag, Hl. split.
    + intros (grp & -> & Hin). apply list_elem_of_filter in Hin as [Hlink Hgrp].
      apply elem_of_m2m_add in Hlink as [Hlink|[_ Hg]].
      * by apply Hnolink in Hlink.
      * split; [done|]. by apply list_elem_of_fmap_2.
    + intros [Hrs Hgrp]. apply list_elem_of_fmap in Hgrp as (grp & -> & Hgrp).
      exists grp. split; [done|]. apply list_elem_of_filter. split; [|done].
      apply elem_of_m2m_add. right. done.
  - intros R g Hg Hmember. eexists. split; [reflexivity|].
    assert (Spec.base_filter db' R None thread) as Hbase.
    { split; [by eapply elem_of_all_messages|]. do 2 (split; [reflexivity|]).
      split; [|done]. exists g. unfold recipients_all, groups_all.
      rewrite Hag, Hug, Hl. split; [|exact Hmember].
      apply list_elem_of_filter in Hmember as [_ Hgrp].
      apply list_elem_of_filter. split; [|done].
      apply elem_of_m2m_add. right. split; [done|]. simpl.
      by apply list_elem_of_fmap_2. }
    unfold union_distinct. rewrite elem_of_remove_dups, elem_of_app.
    destruct (decide (Q_memos_user db' R thread)) as [Hhas|Hno].
    + left. apply elem_of_filter_with_memo. split; [done|].
      apply Exists_exists in Hhas as (memo & Hin & Hk & Hu).
      exists memo. split; [done|]. split; [done|]. split; [done|].
      rewrite Hmemos in Hin. apply elem_of_app in Hin as [Hold|Hnew].
      * destruct Hint as (Hkeys & Hfk & _).
        unfold memo_fk in Hfk. rewrite Forall_forall in Hfk.
        destruct (Hfk _ Hold) as [x Hx]. apply Hkeys in Hx.
        simpl in Hx, Hk. change (msg_id thread) with (next_message_id db) in Hk. lia.
      * apply list_elem_of_singleton in Hnew. by subst memo.
    + right. apply elem_of_filter_without_memo. split; [done|].
      by apply Q_memos_user_no_memo.
Qed.

Lemma create_thread_reaches_members_witness :
  integrity Example.empty_db ∧ senderlist_unique Example.empty_db ∧
  ∃ db' thread,
    create_thread (Example.ticking 10) (Some Example.alice) (Some [Example.staff]) (Some "Hello there")
      Example.empty_db = (db', inr thread) ∧
    message_tbl db' !! msg_id thread = Some thread ∧
    root thread = None ∧ parent thread = None ∧
    message_type thread = STORED ∧ sender thread = Example.alice ∧
    senders_info thread = username Example.alice ∧ text thread = Some "Hello there" ∧
    (∀ g, g ∈ recipient_ids db' thread ↔
          g ∈ group_id <$> [Example.staff] ∧
          g ∈ group_id <$> auth_group Example.empty_db) ∧
    (∀ R g, g ∈ [Example.staff] → g ∈ groups_all Example.empty_db R →
       ∃ threads, get_threads db' (Some R) None false = inr threads ∧
                  thread ∈ threads).
Proof.
  assert (integrity Example.empty_db) as Hint
    by (apply (bool_decide_unpack _); vm_compute; exact I).
  assert (senderlist_unique Example.empty_db) as Huniq
    by (apply (bool_decide_unpack _); vm_compute; exact I).
  split; [exact Hint|]. split; [exact Huniq|].
  exact (create_thread_reaches_members (Example.ticking 10) Example.alice [Example.staff]
           "Hello there" Example.empty_db Hint Huniq).
Defined.

(** ** What [create] writes, and what a failing call leaves behind *)

(** X13. On a store with intact keys, a [create] that returns has written
    one message row, under an id that was free, and one memo; every other
    message row, the recipient links, the sender index and the groups are as
    before.  The timestamps of the new row are two readings of the clock,
    [sent_at] the first and [last_active_at] the second, whatever the keyword
    arguments hold for them; its expiry is the [active_until] passed, none
    when that key is absent; its [html] is its [text], whatever was passed as
    [html]; and its parent is the parent passed. *)
Theorem create_frame (now : Clock) (kw : kwargs) (db db' : DB) (m : Message)
    (r : option Message) :
  integrity db →
  create now kw db = (db', inr (m, r)) →
  msg_id m = next_message_id db ∧
  message_tbl db !! msg_id m = None ∧
  (∀ i, i ≠ msg_id m → message_tbl db' !! i = message_tbl db !! i) ∧
  (∃ memo, messagememo_tbl db' = messagememo_tbl db ++ [memo]) ∧
  message_recipients db' = message_recipients db ∧
  senderlist_tbl db' = senderlist_tbl db ∧
  senderlist_senders db' = senderlist_senders db ∧
  auth_group db' = auth_group db ∧
  auth_user_groups db' = auth_user_groups db ∧
  sent_at m = now 0 ∧ last_active_at m = now 1 ∧
  active_until m = kw_active_until kw ∧
  html m = text m ∧
  parent m = msg_id <$> kw_parent kw.
Proof.
  intros Hint Hrun.
  apply create_inr_shape in Hrun as (s & txt & h & _ & _ & _ & _ & _ & Hm & ->).
  subst m. split; [done|]. split; [by apply integrity_fresh_key|]. split.
  - intros i Hi. simpl. by rewrite lookup_insert_ne.
  - split; [by eexists|]. done.
Qed.

Lemma create_frame_witness :
  integrity Example.thread_db ∧
  msg_id Scenario.timed_reply = next_message_id Example.thread_db ∧
  message_tbl Example.thread_db !! msg_id Scenario.timed_reply = None ∧
  (∀ i, i ≠ msg_id Scenario.timed_reply →
        message_tbl Scenario.timed_db !! i = message_tbl Example.thread_db !! i) ∧
  (∃ memo, messagememo_tbl Scenario.timed_db =
           messagememo_tbl Example.thread_db ++ [memo]) ∧
  message_recipients Scenario.timed_db = message_recipients Example.thread_db ∧
  senderlist_tbl Scenario.timed_db = senderlist_tbl Example.thread_db ∧
  senderlist_senders Scenario.timed_db = senderlist_senders Example.thread_db ∧
  auth_group Scenario.timed_db = auth_group Example.thread_db ∧
  auth_user_groups Scenario.timed_db = auth_user_groups Example.thread_db ∧
  sent_at Scenario.timed_reply = 20 ∧ last_active_at Scenario.timed_reply = 21 ∧
  active_until Scenario.timed_reply = Some 99 ∧
  html Scenario.timed_reply = text Scenario.timed_reply ∧
  parent Scenario.timed_reply = msg_id <$> kw_parent Scenario.timed_kwargs.
Proof.
  assert (integrity Example.thread_db) as Hint
    by (apply (bool_decide_unpack _); vm_compute; exact I).
  split; [exact Hint|].
  apply (create_frame (Example.ticking 20) Scenario.timed_kwargs Example.thread_db
           Scenario.timed_db Scenario.timed_reply (Some Example.thread_root) Hint).
  vm_compute. reflexivity.
Defined.

(** X14. [create_thread] raises [AttributeError] without a sender and
    [TypeError] for a text of [None], both before any write.  Without
    recipients it raises [TypeError] only after [create]: the message and the
    memo of its sender are then stored, with no recipient. *)
Theorem create_thread_failures (now : Clock) (s : option User)
    (rs : option (list Group)) (txt : option string) (db : DB) :
  integrity db →
  (s = None → create_thread now s rs txt db = (db, inl AttributeError)) ∧
  (∀ s0, s = Some s0 → txt = None →
         create_thread now s rs txt db = (db, inl TypeError)) ∧
  (∀ s0 t, s = Some s0 → txt = Some t → rs = None →
     ∃ db' m,
       create_thread now s rs txt db = (db', inl TypeError) ∧
       message_tbl db !! msg_id m = None ∧
       message_tbl db' !! msg_id m = Some m ∧
       sender m = s0 ∧ text m = Some t ∧ root m = None ∧
       {| memo_id := next_memo_id db; user := s0;
          message := msg_id m; status := SEEN |} ∈ messagememo_tbl db' ∧
       message_recipients db' = message_recipients db).
Proof.
  intros Hint. split; [by intros ->|]. split.
  - intros s0 -> ->. unfold create_thread. unfold mbind, M_bind.
    by rewrite create_run.
  - intros s0 t -> -> ->. unfold create_thread. unfold mbind, M_bind.
    change {| kw_root := None; kw_parent := None; kw_message_type := Some STORED;
              kw_sender := Some s0; kw_senders_info := Some (username s0);
              kw_headline := None; kw_text := Some (Some t); kw_html := None;
              kw_sent_at := None; kw_last_active_at := None;
              kw_active_until := None |}
      with (thread_kwargs s0 (Some t)).
    rewrite (create_succeeds now (thread_kwargs s0 (Some t)) db None s0 t Hint
               eq_refl eq_refl eq_refl).
    cbv zeta. simpl default.
    eexists _, (created_message now (thread_kwargs s0 (Some t)) db None s0 (Some t)
                  (Py.slice_to MAX_TITLE_LENGTH t)).
    split; [reflexivity|].
    split; [by apply integrity_fresh_key|]. split; [apply lookup_insert_eq|].
    do 3 (split; [reflexivity|]). split; [|done].
    simpl. apply elem_of_app. right. by left.
Qed.

Lemma create_thread_failures_witness :
  integrity Example.empty_db ∧
  ∃ db' m,
    create_thread (Example.ticking 10) (Some Example.alice) None (Some "Hello there") Example.empty_db
      = (db', inl TypeError) ∧
    message_tbl Example.empty_db !! msg_id m = None ∧
    message_tbl db' !! msg_id m = Some m ∧
    sender m = Example.alice ∧ text m = Some "Hello there" ∧ root m = None ∧
    {| memo_id := next_memo_id Example.empty_db; user := Example.alice;
       message := msg_id m; status := SEEN |} ∈ messagememo_tbl db' ∧
    message_recipients db' = message_recipients Example.empty_db.
Proof.
  assert (integrity Example.empty_db) as Hint
    by (apply (bool_decide_unpack _); vm_compute; exact I).
  split; [exact Hint|].
  destruct (create_thread_failures (Example.ticking 10) (Some Example.alice) None (Some "Hello there")
              Example.empty_db Hint) as (_ & _ & Hpartial).
  exact (Hpartial Example.alice "Hello there" eq_refl eq_refl eq_refl).
Defined.

(** X15. [create_response], once the root of the parent is resolved: a text
    of [None] raises [TypeError] and a missing sender [IntegrityError], both
    before any write.  Without a parent it raises [AttributeError], and when
    the sender of the parent has no personal group it raises the error of the
    lookup, in both cases after [create]: the answer is then stored, and no
    recipient link has been added. *)
Theorem create_response_failures (now : Clock) (s : option User)
    (txt : option string) (p : option Message) (db : DB) (r : option Message) :
  integrity db →
  (create_root (response_kwargs s txt p) db).2 = inr r →
  (txt = None → create_response now s txt p db = (db, inl TypeError)) ∧
  (∀ t, txt = Some t → s = None →
        create_response now s txt p db = (db, inl IntegrityError)) ∧
  (∀ s0 t, s = Some s0 → txt = Some t →
     ∃ db1 m,
       create now (response_kwargs s txt p) db = (db1, inr (m, r)) ∧
       message_tbl db !! msg_id m = None ∧
       message_tbl db1 !! msg_id m = Some m ∧
       message_recipients db1 = message_recipients db ∧
       (p = None → create_response now s txt p db = (db1, inl AttributeError)) ∧
       (∀ parent e, p = Some parent →
          (get_personal_group (sender parent) db).2 = inl e →
          create_response now s txt p db = (db1, inl e))).
Proof.
  intros Hint Hroot. split; [|split].
  - intros ->. unfold create_response. unfold mbind, M_bind.
    change {| kw_root := None; kw_parent := p; kw_message_type := Some STORED;
              kw_sender := s; kw_senders_info := None; kw_headline := None;
              kw_text := Some None; kw_html := None;
              kw_sent_at := None; kw_last_active_at := None;
              kw_active_until := None |}
      with (response_kwargs s None p).
    by rewrite create_run, Hroot.
  - intros t -> ->. unfold create_response. unfold mbind, M_bind.
    change {| kw_root := None; kw_parent := p; kw_message_type := Some STORED;
              kw_sender := None; kw_senders_info := None; kw_headline := None;
              kw_text := Some (Some t); kw_html := None;
              kw_sent_at := None; kw_last_active_at := None;
              kw_active_until := None |}
      with (response_kwargs None (Some t) p).
    by rewrite create_run, Hroot.
  - intros s0 t -> ->.
    pose proof (create_succeeds now (response_kwargs (Some s0) (Some t) p) db r s0 t
                  Hint Hroot eq_refl eq_refl) as Hcreate.
    cbv zeta in Hcreate. simpl default in Hcreate.
    eexists _, _. split; [exact Hcreate|].
    split; [by apply integrity_fresh_key|]. split; [apply lookup_insert_eq|].
    split; [done|]. split.
    + intros ->. unfold create_response. unfold mbind, M_bind.
      change {| kw_root := None; kw_parent := None; kw_message_type := Some STORED;
                kw_sender := Some s0; kw_senders_info := None; kw_headline := None;
                kw_text := Some (Some t); kw_html := None;
                kw_sent_at := None; kw_last_active_at := None;
                kw_active_until := None |}
        with (response_kwargs (Some s0) (Some t) None).
      by rewrite Hcreate.
    + intros parent e -> Hget. unfold create_response. unfold mbind at 1.
      unfold M_bind at 1.
      change {| kw_root := None; kw_parent := Some parent;
                kw_message_type := Some STORED;
                kw_sender := Some s0; kw_senders_info := None; kw_headline := None;
                kw_text := Some (Some t); kw_html := None;
                kw_sent_at := None; kw_last_active_at := None;
                kw_active_until := None |}
        with (response_kwargs (Some s0) (Some t) (Some parent)).
      rewrite Hcreate. cbv beta iota.
      unfold mbind at 1. unfold M_bind at 1. unfold get_db. cbv beta iota.
      unfold mbind at 1. unfold M_bind at 1.
      unfold parent_sender. rewrite get_personal_group_run.
      rewrite get_personal_group_run in Hget. simpl in Hget. simpl auth_group.
      by rewrite Hget.
Qed.

Lemma create_response_failures_witness :
  integrity Example.empty_db ∧
  ∃ db1 m,
    create (Example.ticking 20) (response_kwargs (Some Example.bob) (Some "Hi") None) Example.empty_db
      = (db1, inr (m, None)) ∧
    message_tbl Example.empty_db !! msg_id m = None ∧
    message_tbl db1 !! msg_id m = Some m ∧
    message_recipients db1 = message_recipients Example.empty_db ∧
    ((None : option Message) = None →
     create_response (Example.ticking 20) (Some Example.bob) (Some "Hi") None Example.empty_db
       = (db1, inl AttributeError)) ∧
    (∀ parent e, (None : option Message) = Some parent →
       (get_personal_group (sender parent) Example.empty_db).2 = inl e →
       create_response (Example.ticking 20) (Some Example.bob) (Some "Hi") None Example.empty_db
         = (db1, inl e)).
Proof.
  assert (integrity Example.empty_db) as Hint
    by (apply (bool_decide_unpack _); vm_compute; exact I).
  split; [exact Hint|].
  destruct (create_response_failures (Example.ticking 20) (Some Example.bob) (Some "Hi") None
              Example.empty_db None Hint eq_refl) as (_ & _ & Hpartial).
  exact (Hpartial Example.bob "Hi" eq_refl eq_refl).
Defined.

(** ** The thread heading *)

Lemma append_nil_l (s : string) : "" +:+ s = s.
Proof. reflexivity. Qed.

Lemma append_cons (c : ascii) (a b : string) : String c a +:+ b = String c (a +:+ b).
Proof. reflexivity. Qed.

Lemma join_comma_singleton x : Py.join_comma [x] = x.
Proof. reflexivity. Qed.

Lemma join_comma_cons x y l :
  Py.join_comma (x :: y :: l) = x +:+ "," +:+ Py.join_comma (y :: l).
Proof. reflexivity. Qed.

Lemma split_comma_nonempty s : Py.split_comma s ≠ [].
Proof.
  destruct s as [|c r]; simpl; [done|].
  destruct (Ascii.eqb c ","); [done|]. by destruct (Py.split_comma r).
Qed.

(** [','.join(s.split(','))] is [s]. *)
Lemma join_split_comma s : Py.join_comma (Py.split_comma s) = s.
Proof.
  induction s as [|c r IH]; [done|]. simpl.
  pose proof (split_comma_nonempty r) as Hne.
  destruct (Ascii.eqb c ",") eqn:Hc.
  - apply Ascii.eqb_eq in Hc as ->.
    destruct (Py.split_comma r) as [|y l]; [done|].
    rewrite join_comma_cons, IH. reflexivity.
  - destruct (Py.split_comma r) as [|h [|y l]]; [done| |].
    + rewrite join_comma_singleton in *. congruence.
    + rewrite join_comma_cons, append_cons. rewrite join_comma_cons in IH.
      by rewrite IH.
Qed.

Lemma split_comma_free u : comma_free u → Py.split_comma u = [u].
Proof.
  induction u as [|c r IH]; [done|]. simpl. intros [-> Hr]. by rewrite IH.
Qed.

Lemma split_comma_app u t :
  comma_free u → Py.split_comma (u +:+ "," +:+ t) = u :: Py.split_comma t.
Proof.
  induction u as [|c r IH]; [done|]. intros [Hc Hr].
  rewrite append_cons. simpl. rewrite Hc. by rewrite IH.
Qed.

Lemma slice_to_all n s : (String.length s ≤ n)%nat → Py.slice_to n s = s.
Proof.
  unfold Py.slice_to. revert n.
  induction s as [|c s IH]; intros [|n] Hn; simpl in *; try done; try lia.
  rewrite IH; [done|lia].
Qed.

Lemma slice_to_app_ge n a b :
  (n ≤ String.length a)%nat → Py.slice_to n (a +:+ b) = Py.slice_to n a.
Proof.
  unfold Py.slice_to. revert n.
  induction a as [|c a IH]; intros [|n] Hn; simpl in Hn; try lia.
  - rewrite append_nil_l. simpl. by destruct b.
  - rewrite append_cons. simpl. reflexivity.
  - rewrite append_cons. simpl. rewrite IH; [done|lia].
Qed.

Lemma slice_to_app_le n a b :
  (String.length a ≤ n)%nat →
  Py.slice_to n (a +:+ b) = a +:+ Py.slice_to (n - String.length a) b.
Proof.
  unfold Py.slice_to. revert n.
  induction a as [|c a IH]; intros n Hn.
  - rewrite !append_nil_l. simpl. by rewrite Nat.sub_0_r.
  - destruct n as [|n]; simpl in Hn; [lia|].
    rewrite !append_cons. simpl. rewrite IH; [done|lia].
Qed.

Lemma comma_free_slice_to n u : comma_free u → comma_free (Py.slice_to n u).
Proof.
  unfold Py.slice_to. revert n.
  induction u as [|c r IH]; intros [|n]; simpl; try done.
  intros [Hc Hr]. split; [done|]. by apply IH.
Qed.

Lemma prepend_name_absent u v :
  u ∉ Py.split_comma v → prepend_name u v = Py.slice_to 64 (u +:+ "," +:+ v).
Proof.
  intros Habsent. unfold prepend_name, Py.contains.
  rewrite bool_decide_eq_false_2 by done.
  pose proof (split_comma_nonempty v) as Hne.
  pose proof (join_split_comma v) as Hjoin.
  destruct (Py.split_comma v) as [|y l]; [done|].
  by rewrite join_comma_cons, Hjoin.
Qed.

(** X16. [update_senders_info] always returns and writes the row of the
    message; the new [senders_info] has at most 64 characters.  When the name
    of the sender is not among the names listed, it is the first 64 characters
    of the name, a comma and the old value: an empty old value leaves a
    trailing comma. *)
Theorem update_senders_info_prepends (self : Message) (db : DB) :
  ∃ db' self',
    update_senders_info self db = (db', inr self') ∧
    message_tbl db' = <[msg_id self := self']> (message_tbl db) ∧
    (String.length (senders_info self') ≤ 64)%nat ∧
    (username (sender self) ∉ Py.split_comma (senders_info self) →
     senders_info self' =
       Py.slice_to 64 (username (sender self) +:+ "," +:+ senders_info self)) ∧
    (senders_info self = "" → username (sender self) ≠ "" →
     senders_info self' = Py.slice_to 64 (username (sender self) +:+ ",")).
Proof.
  eexists _, _. split; [apply update_senders_info_eq|]. split; [done|].
  split; [|split].
  - simpl. unfold new_senders_info, prepend_name. rewrite slice_to_length. lia.
  - intros Habsent. simpl. by apply prepend_name_absent.
  - intros Hempty Hname. simpl. unfold new_senders_info.
    rewrite prepend_name_absent.
    + by rewrite Hempty.
    + rewrite Hempty. simpl. intros Hin. apply list_elem_of_singleton in Hin. done.
Qed.

Lemma prepend_to_own_name u :
  comma_free u → prepend_name u u = Py.slice_to 64 u.
Proof.
  intros Hfree. unfold prepend_name. rewrite (split_comma_free _ Hfree).
  unfold Py.contains. rewrite bool_decide_eq_true_2 by (by left).
  simpl. by rewrite decide_True.
Qed.

Lemma prepend_to_cut_name u :
  comma_free u → (64 < String.length u)%nat →
  prepend_name u (Py.slice_to 64 u) = Py.slice_to 64 u.
Proof.
  intros Hfree Hlong. unfold prepend_name.
  rewrite (split_comma_free _ (comma_free_slice_to 64 _ Hfree)).
  unfold Py.contains. rewrite bool_decide_eq_false_2.
  - rewrite join_comma_cons. apply slice_to_app_ge. lia.
  - intros Hin. apply list_elem_of_singleton in Hin.
    pose proof (slice_to_length 64 u) as Hlen.
    rewrite <- Hin in Hlen. lia.
Qed.

Lemma prepend_to_headed u t :
  comma_free u →
  (String.length (u +:+ "," +:+ t) ≤ 64)%nat →
  prepend_name u (u +:+ "," +:+ t) = u +:+ "," +:+ t.
Proof.
  intros Hfree Hshort. unfold prepend_name.
  rewrite (split_comma_app _ t Hfree).
  unfold Py.contains. rewrite bool_decide_eq_true_2 by (by left).
  simpl Py.remove. rewrite decide_True by done.
  pose proof (split_comma_nonempty t) as Hne.
  pose proof (join_split_comma t) as Hjoin.
  destruct (Py.split_comma t) as [|y l]; [done|].
  rewrite join_comma_cons, Hjoin. by apply slice_to_all.
Qed.

(** Prepending a name twice gives what prepending it once gives. *)
Lemma prepend_name_idemp u v :
  comma_free u → prepend_name u (prepend_name u v) = prepend_name u v.
Proof.
  intros Hfree. unfold prepend_name at 2 3.
  destruct (if Py.contains u (Py.split_comma v)
            then Py.remove u (Py.split_comma v)
            else Py.split_comma v) as [|y l].
  - rewrite join_comma_singleton.
    destruct (le_lt_dec (String.length u) 64) as [Hle|Hgt].
    + rewrite (slice_to_all 64 u Hle). rewrite <- (slice_to_all 64 u Hle) at 3.
      by apply prepend_to_own_name.
    + by apply prepend_to_cut_name.
  - rewrite join_comma_cons.
    destruct (le_lt_dec 64 (String.length u)) as [Hge|Hlt].
    + rewrite (slice_to_app_ge 64 u _ Hge).
      destruct (le_lt_dec (String.length u) 64) as [Hle|Hgt].
      * rewrite (slice_to_all 64 u Hle). rewrite <- (slice_to_all 64 u Hle) at 3.
        by apply prepend_to_own_name.
      * by apply prepend_to_cut_name.
    + assert (Py.slice_to 64 (u +:+ "," +:+ Py.join_comma (y :: l)) =
              u +:+ "," +:+ Py.slice_to (63 - String.length u) (Py.join_comma (y :: l)))
        as Hcut.
      { rewrite slice_to_app_le by lia.
        destruct (64 - String.length u) as [|k] eqn:Hk; [lia|].
        replace (63 - String.length u) with k by lia. reflexivity. }
      rewrite Hcut. apply prepend_to_headed; [done|].
      rewrite <- Hcut. rewrite slice_to_length. lia.
Qed.

(** X17. For a sender whose name holds no comma, [update_senders_info] is
    idempotent: run a second time on the instance it returned, it returns the
    same instance and leaves the database as the first run left it. *)
Theorem update_senders_info_idempotent (self self1 self2 : Message)
    (db db1 db2 : DB) :
  comma_free (username (sender self)) →
  update_senders_info self db = (db1, inr self1) →
  update_senders_info self1 db1 = (db2, inr self2) →
  self2 = self1 ∧ db2 = db1.
Proof.
  intros Hfree. rewrite !update_senders_info_eq.
  intros [= <- <-] [= <- <-].
  assert (set_senders_info
            (new_senders_info (set_senders_info (new_senders_info self) self))
            (set_senders_info (new_senders_info self) self) =
          set_senders_info (new_senders_info self) self) as Hsame.
  { unfold new_senders_info at 1. simpl sender. simpl senders_info.
    unfold new_senders_info. by rewrite (prepend_name_idemp _ _ Hfree). }
  rewrite Hsame. split; [done|].
  destruct db. unfold set_message_tbl. simpl. f_equal.
  apply insert_insert_eq.
Qed.

Lemma update_senders_info_idempotent_witness :
  comma_free "B" ∧
  update_senders_info Example.reply Example.reply_db
    = (Scenario.headed_db, inr Scenario.headed_reply) ∧
  update_senders_info Scenario.headed_reply Scenario.headed_db
    = (Scenario.headed_db, inr Scenario.headed_reply) ∧
  Scenario.headed_reply = Scenario.headed_reply ∧
  Scenario.headed_db = Scenario.headed_db.
Proof.
  assert (comma_free "B") as Hfree by (vm_compute; tauto).
  assert (update_senders_info Example.reply Example.reply_db
            = (Scenario.headed_db, inr Scenario.headed_reply)) as Hfirst
    by (vm_compute; reflexivity).
  assert (update_senders_info Scenario.headed_reply Scenario.headed_db
            = (Scenario.headed_db, inr Scenario.headed_reply)) as Hsecond
    by (vm_compute; reflexivity).
  split; [exact Hfree|]. split; [exact Hfirst|]. split; [exact Hsecond|].
  exact (update_senders_info_idempotent Example.reply Scenario.headed_reply
           Scenario.headed_reply Example.reply_db Scenario.headed_db
           Scenario.headed_db Hfree Hfirst Hsecond).
Defined.

(** ** Memos along a conversation *)

Lemma memo_step_same db db' :
  messagememo_tbl db' = messagememo_tbl db → memo_step db db'.
Proof.
  intros H. exists [], id. rewrite app_nil_r, list_fmap_id. split; [done|].
  split; [done|]. by left.
Qed.

Lemma memo_step_unique db db' :
  integrity db → Spec.memo_unique db → memo_step db db' → Spec.memo_unique db'.
Proof.
  intros (Hkeys & Hfk & _) Huniq (added & f & Htbl & Hf & Hadded).
  assert (∀ i a, messagememo_tbl db !! i = Some a →
                 message a ≠ next_message_id db) as Hold.
  { intros i a Hi Hk. unfold memo_fk in Hfk. rewrite Forall_forall in Hfk.
    destruct (Hfk a) as [x Hx]; [by eapply list_elem_of_lookup_2|].
    apply Hkeys in Hx. simpl in Hx. lia. }
  intros i j m1 m2. rewrite Htbl, !list_lookup_fmap.
  destruct ((messagememo_tbl db ++ added) !! i) as [a|] eqn:Hi; [|done].
  destruct ((messagememo_tbl db ++ added) !! j) as [b|] eqn:Hj; [|done].
  simpl. intros [= <-] [= <-] Hu Hk.
  destruct (Hf a) as [Hua Hka]. destruct (Hf b) as [Hub Hkb].
  rewrite Hua, Hub in Hu. rewrite Hka, Hkb in Hk.
  destruct Hadded as [->|(memo & -> & Hmemo)].
  - rewrite app_nil_r in Hi, Hj. by apply (Huniq i j a b).
  - apply lookup_app_Some in Hi as [Hi|[Hil Hi]];
      apply lookup_app_Some in Hj as [Hj|[Hjl Hj]].
    + by apply (Huniq i j a b).
    + apply list_lookup_singleton_Some in Hj as [_ <-].
      exfalso. apply (Hold i a Hi). congruence.
    + apply list_lookup_singleton_Some in Hi as [_ <-].
      exfalso. apply (Hold j b Hj). congruence.
    + apply list_lookup_singleton_Some in Hi as [Hi0 _].
      apply list_lookup_singleton_Some in Hj as [Hj0 _]. lia.
Qed.

Lemma create_memo_step now kw db db' res :
  create now kw db = (db', res) →
  memo_step db db' ∧
  (∀ e, res = inl e → integrity db → db' = db) ∧
  (∀ m r, res = inr (m, r) →
     messagememo_tbl db' = messagememo_tbl db ++
       [{| memo_id := next_memo_id db; user := sender m;
           message := next_message_id db; status := SEEN |}]).
Proof.
  intros Hrun. destruct res as [e|[m r]].
  - split; [|split; [|done]].
    + revert Hrun. rewrite create_run.
      destruct (create_root kw db).2 as [e0|r0];
        [intros [= <- _]; by apply memo_step_same|].
      destruct (kw_text kw) as [txt|]; [|intros [= <- _]; by apply memo_step_same].
      destruct (match kw_headline kw with Some h => Some h | None => txt end)
        as [h|]; [|intros [= <- _]; by apply memo_step_same].
      destruct (kw_sender kw) as [s|]; [|intros [= <- _]; by apply memo_step_same].
      simpl. destruct (memos_of db s (next_message_id db)); [done|].
      intros [= <- _]. by apply memo_step_same.
    + intros e' _ Hint. by eapply create_failure_unchanged.
  - apply create_inr_shape in Hrun as (s & txt & h & _ & _ & _ & _ & _ & -> & ->).
    split; [|split; [done|]].
    + eexists [_], id. rewrite list_fmap_id. split; [reflexivity|].
      split; [done|]. right. eexists. split; reflexivity.
    + intros m' r' [= <- <-]. reflexivity.
Qed.

Lemma memo_step_after_create db db1 db' m :
  messagememo_tbl db1 = messagememo_tbl db ++
    [{| memo_id := next_memo_id db; user := sender m;
        message := next_message_id db; status := SEEN |}] →
  messagememo_tbl db' = messagememo_tbl db1 → memo_step db db'.
Proof.
  intros H1 H'. eexists [_], id. rewrite list_fmap_id, H', H1.
  split; [reflexivity|]. split; [done|]. right. eexists. split; reflexivity.
Qed.

Lemma create_thread_memo_step now s rs txt db db' res :
  create_thread now s rs txt db = (db', res) → memo_step db db'.
Proof.
  unfold create_thread. destruct s as [s|];
    [|intros [= <- _]; by apply memo_step_same].
  intros H. apply bind_cases in H as [(e & Hc & _)|(db1 & [m r] & Hc & H)].
  - by apply create_memo_step in Hc as [Hstep _].
  - apply create_memo_step in Hc as (_ & _ & Hm). specialize (Hm m r eq_refl).
    destruct rs as [rs|];
      [|injection H as <- _; by eapply memo_step_after_create].
    apply bind_cases in H as [(e & Ha & _)|(db2 & [] & Ha & H)].
    + apply add_recipients_frame in Ha as (_ & _ & _ & _ & Hm2 & _).
      by eapply memo_step_after_create.
    + injection H as <- _.
      apply add_recipients_frame in Ha as (_ & _ & _ & _ & Hm2 & _).
      by eapply memo_step_after_create.
Qed.

Lemma create_response_memo_step now s txt p db db' res :
  create_response now s txt p db = (db', res) → memo_step db db'.
Proof.
  unfold create_response.
  intros H. apply bind_cases in H as [(e & Hc & _)|(db1 & [m r] & Hc & H)].
  { by apply create_memo_step in Hc as [Hstep _]. }
  apply create_memo_step in Hc as (_ & _ & Hm). specialize (Hm m r eq_refl).
  destruct p as [parent|];
    [|injection H as <- _; by eapply memo_step_after_create].
  apply bind_cases in H as [(e & Hg & _)|(db1' & dbv & Hg & H)]; [done|].
  injection Hg as <- <-.
  pose proof (get_personal_group_db (parent_sender parent) db1) as Hdb.
  apply bind_cases in H as [(e & Hg & _)|(db1' & sg & Hg & H)].
  { rewrite Hg in Hdb. simpl in Hdb. subst. by eapply memo_step_after_create. }
  rewrite Hg in Hdb. simpl in Hdb. subst db1'.
  apply bind_cases in H as [(e & Ha & _)|(db2 & [] & Ha & H)].
  { apply add_recipients_frame in Ha as (_ & _ & _ & _ & Hm2 & _).
    by eapply memo_step_after_create. }
  apply add_recipients_frame in Ha as (_ & _ & _ & _ & Hm2 & _).
  apply bind_cases in H as [(e & Ha & _)|(db3 & [] & Ha & H)].
  { apply add_recipients_frame in Ha as (_ & _ & _ & _ & Hm3 & _).
    eapply memo_step_after_create; [exact Hm|]. congruence. }
  apply add_recipients_frame in Ha as (_ & _ & _ & _ & Hm3 & _).
  destruct r as [root0|];
    [|injection H as <- _; eapply memo_step_after_create; [exact Hm|congruence]].
  cbv zeta in H.
  apply bind_cases in H as [(e & Hu & _)|(db4 & root1 & Hu & H)];
    rewrite update_senders_info_eq in Hu; [done|].
  injection Hu as <- <-.
  apply bind_cases in H as [(e & Hu & _)|(db5 & [] & Hu & H)].
  { rewrite unarchive_run in Hu. done. }
  rewrite unarchive_run in Hu. injection Hu as <-. injection H as <- _.
  eexists [_], (unarchive_memo _). split.
  - simpl. rewrite Hm3, Hm2, Hm. reflexivity.
  - split.
    + intros memo. destruct (unarchive_memo_keys
        (set_senders_info (new_senders_info (set_last_active_at (now 2) root0))
           (set_last_active_at (now 2) root0)) memo) as (_ & ? & ?). done.
    + right. eexists. split; reflexivity.
Qed.

(** X18. In every state a conversation reaches, whether its calls returned
    or raised, the keys are intact, every message's root is null or its
    topmost ancestor, each (user, message) pair has at most one memo, and so
    no thread is in both the inbox view and the deleted view of a user. *)
Theorem conversation_store_invariants (db : DB) :
  conversation db →
  integrity db ∧ root_inv db ∧ Spec.memo_unique db ∧
  (∀ R by_sender inbox archived m,
     get_threads db (Some R) by_sender false = inr inbox →
     get_threads db (Some R) by_sender true = inr archived →
     m ∈ inbox → m ∉ archived).
Proof.
  intros Hconv.
  assert (Spec.memo_unique db) as Huniq.
  { induction Hconv as [db Ht Hl Hm|db now s rs txt Hconv IH
                       |db now s txt p Hconv IH Hp].
    - intros i j m1 m2. by rewrite Hm.
    - destruct (conversation_invariant db Hconv) as [Hint _].
      apply (memo_step_unique db); [done|done|].
      eapply create_thread_memo_step. apply surjective_pairing.
    - destruct (conversation_invariant db Hconv) as [Hint _].
      apply (memo_step_unique db); [done|done|].
      eapply create_response_memo_step. apply surjective_pairing. }
  destruct (conversation_invariant db Hconv) as [Hint Hinv].
  split; [done|]. split; [done|]. split; [done|].
  intros R by_sender inbox archived m [= <-] [= <-] Hin Hout.
  apply elem_of_filter_with_memo in Hout as [_ (a & Ha & Hka & Hua & Hsa)].
  unfold union_distinct in Hin. rewrite elem_of_remove_dups, elem_of_app in Hin.
  destruct Hin as [Hin|Hin].
  - apply elem_of_filter_with_memo in Hin as [_ (b & Hb & Hkb & Hub & Hsb)].
    apply list_elem_of_lookup in Ha as [i Hi].
    apply list_elem_of_lookup in Hb as [j Hj].
    assert (i = j) as -> by (apply (Huniq i j a b Hi Hj); congruence).
    congruence.
  - apply elem_of_filter_without_memo in Hin as [_ Hno]. by apply (Hno a).
Qed.

Lemma reply_db_conversation : conversation Example.reply_db.
Proof.
  apply (conv_response Example.thread_db (Example.ticking 20) (Some Example.bob) (Some "Hi")
           (Some Example.thread_root)).
  - apply (conv_thread Example.empty_db (Example.ticking 10) (Some Example.alice)
             (Some [Example.staff]) (Some "Hello there")).
    by apply conv_start.
  - intros p' [= <-]. apply instance_of_stored. vm_compute. reflexivity.
Defined.

Lemma conversation_store_invariants_witness :
  conversation Example.reply_db ∧
  integrity Example.reply_db ∧ root_inv Example.reply_db ∧
  Spec.memo_unique Example.reply_db ∧
  (∀ R by_sender inbox archived m,
     get_threads Example.reply_db (Some R) by_sender false = inr inbox →
     get_threads Example.reply_db (Some R) by_sender true = inr archived →
     m ∈ inbox → m ∉ archived).
Proof.
  split; [exact reply_db_conversation|].
  exact (conversation_store_invariants Example.reply_db reply_db_conversation).
Defined.

(** ** The views of a user *)

(** X19. Filtering a view by sender selects, among the threads of the view
    without filter, those whose sender has the id of the given sender. *)
Theorem get_threads_sender_filter (db : DB) (R S : User) (deleted : bool) :
  ∃ all_threads filtered,
    get_threads db (Some R) None deleted = inr all_threads ∧
    get_threads db (Some R) (Some S) deleted = inr filtered ∧
    ∀ m, m ∈ filtered ↔ m ∈ all_threads ∧ user_id (sender m) = user_id S.
Proof.
  assert (∀ m, Spec.base_filter db R (Some S) m ↔
               Spec.base_filter db R None m ∧ user_id (sender m) = user_id S)
    as Hbase.
  { intros m. unfold Spec.base_filter. split.
    - intros (? & ? & ? & ? & Hs). split; [|by apply Hs]. by repeat split.
    - intros [(? & ? & ? & ? & _) Hs]. repeat split; try done.
      by intros s [= <-]. }
  destruct deleted; eexists _, _; (split; [reflexivity|]);
    (split; [reflexivity|]); intros m.
  - rewrite !elem_of_filter_with_memo, Hbase. tauto.
  - unfold union_distinct. rewrite !elem_of_remove_dups, !elem_of_app.
    rewrite !elem_of_filter_with_memo, !elem_of_filter_without_memo, Hbase. tauto.
Qed.

(** X20. [get_threads] needs a recipient ([AttributeError] without one);
    for a recipient who belongs to no group both views are empty, whatever
    the memos. *)
Theorem get_threads_no_groups (db : DB) (R : User) (by_sender : option User)
    (deleted : bool) :
  groups_all db R = [] →
  get_threads db None by_sender deleted = inl AttributeError ∧
  get_threads db (Some R) by_sender deleted = inr [].
Proof.
  intros Hnone. split; [done|].
  assert (∀ m, ¬ Spec.base_filter db R by_sender m) as Hbase.
  { intros m (_ & _ & _ & (g & _ & Hg) & _). rewrite Hnone in Hg.
    by apply elem_of_nil in Hg. }
  destruct deleted; simpl; f_equal; apply elem_of_nil_inv; intros m Hm.
  - apply elem_of_filter_with_memo in Hm as [Hb _]. by apply (Hbase m).
  - unfold union_distinct in Hm. rewrite elem_of_remove_dups, elem_of_app in Hm.
    destruct Hm as [Hm|Hm].
    + apply elem_of_filter_with_memo in Hm as [Hb _]. by apply (Hbase m).
    + apply elem_of_filter_without_memo in Hm as [Hb _]. by apply (Hbase m).
Qed.

Lemma get_threads_no_groups_witness :
  groups_all Example.reply_db Scenario.carol = [] ∧
  get_threads Example.reply_db None None false = inl AttributeError ∧
  get_threads Example.reply_db (Some Scenario.carol) None false = inr [].
Proof.
  assert (groups_all Example.reply_db Scenario.carol = []) as Hnone
    by (vm_compute; reflexivity).
  split; [exact Hnone|].
  exact (get_threads_no_groups Example.reply_db Scenario.carol None false Hnone).
Defined.
